(** * Cloud Vision OCR add-on: result location and page assembly

    A shallow embedding of [src/main.py] (class [CloudVision]): the
    methods [list_blobs], [set_doc_text] and the part of [vision_method]
    that follows the OCR job, with the Python operations they rely on
    (subscripting, [dict.get], iteration, truthiness, chained comparison,
    [str.split], [str.join], the stable [sorted]) written out together
    with the exceptions they raise. *)

From Stdlib Require Import List String Ascii ZArith QArith Bool Arith Lia.
From Stdlib Require Import Sorted Permutation DecimalString.
Import ListNotations.

Local Open Scope string_scope.
Local Open Scope list_scope.
Local Open Scope nat_scope.

(** ** Python values and exceptions *)

(** The key of a failed dictionary lookup: JSON objects have string keys,
    and [d[0]] on a dictionary looks the integer [0] up. *)
Inductive pykey : Type :=
| KStr (s : string)
| KInt (n : nat).

(** The built-in exceptions the modelled operations can raise. *)
Inductive exn : Type :=
| KeyError (k : pykey)
| ValueError
| IndexError
| TypeError
| AttributeError.

Inductive result (A : Type) : Type :=
| Ok (a : A)
| Raise (e : exn).

Arguments Ok {A} a.
Arguments Raise {A} e.

Definition bind {A B : Type} (m : result A) (k : A -> result B) : result B :=
  match m with
  | Ok a => k a
  | Raise e => Raise e
  end.

Declare Scope py_scope.
Delimit Scope py_scope with py.
Notation "x <- m ;; k" := (bind m (fun x => k))
  (at level 61, m at next level, right associativity) : py_scope.
Local Open Scope py_scope.

(** A Python [float]: a finite binary64 value is kept as the rational it
    denotes (comparisons of Python numbers are exact), next to the three
    non-finite values [json.loads] accepts. *)
Inductive pyfloat : Type :=
| Finite (q : Q)
| Nan
| PosInf
| NegInf.

(** What [json.loads] returns.  The fields of [JObj] are the items of the
    resulting [dict], whose keys are all strings. *)
Unset Elimination Schemes.
Inductive json : Type :=
| JNull
| JBool (b : bool)
| JInt (z : Z)
| JFloat (f : pyfloat)
| JStr (s : string)
| JArr (items : list json)
| JObj (fields : list (string * json)).
Set Elimination Schemes.

Fixpoint dict_lookup (k : string) (fields : list (string * json)) : option json :=
  match fields with
  | [] => None
  | (k', v) :: rest => if String.eqb k k' then Some v else dict_lookup k rest
  end.

(** [v[k]] with a string key. *)
Definition getitem_key (v : json) (k : string) : result json :=
  match v with
  | JObj fields =>
      match dict_lookup k fields with
      | Some x => Ok x
      | None => Raise (KeyError (KStr k))
      end
  | _ => Raise TypeError
  end.

(** [v[n]] with a non-negative integer literal. *)
Definition getitem_idx (v : json) (n : nat) : result json :=
  match v with
  | JArr items =>
      match nth_error items n with
      | Some x => Ok x
      | None => Raise IndexError
      end
  | JStr s =>
      match String.get n s with
      | Some c => Ok (JStr (String c EmptyString))
      | None => Raise IndexError
      end
  | JObj _ => Raise (KeyError (KInt n))
  | _ => Raise TypeError
  end.

(** [v.get(k, default)]: only a [dict] has the method. *)
Definition call_get (v : json) (k : string) (default : json) : result json :=
  match v with
  | JObj fields =>
      match dict_lookup k fields with
      | Some x => Ok x
      | None => Ok default
      end
  | _ => Raise AttributeError
  end.

(** [iter(v)], unfolded to the list of the items a [for] loop visits. *)
Definition iter (v : json) : result (list json) :=
  match v with
  | JArr items => Ok items
  | JObj fields => Ok (map (fun kv => JStr (fst kv)) fields)
  | JStr s => Ok (map (fun c => JStr (String c EmptyString)) (list_ascii_of_string s))
  | _ => Raise TypeError
  end.

(** [bool(v)], the test of [if annotation:]. *)
Definition truthy (v : json) : bool :=
  match v with
  | JNull => false
  | JBool b => b
  | JInt z => negb (Z.eqb z 0)
  | JFloat (Finite q) => negb (Qeq_bool q 0)
  | JFloat _ => true
  | JStr s => negb (String.eqb s EmptyString)
  | JArr items => match items with [] => false | _ => true end
  | JObj fields => match fields with [] => false | _ => true end
  end.

(** [0 <= v]. *)
Definition zero_le (v : json) : result bool :=
  match v with
  | JBool _ => Ok true
  | JInt z => Ok (0 <=? z)%Z
  | JFloat (Finite q) => Ok (Qle_bool 0 q)
  | JFloat PosInf => Ok true
  | JFloat _ => Ok false
  | _ => Raise TypeError
  end.

(** [v <= 1]. *)
Definition le_one (v : json) : result bool :=
  match v with
  | JBool _ => Ok true
  | JInt z => Ok (z <=? 1)%Z
  | JFloat (Finite q) => Ok (Qle_bool q 1)
  | JFloat NegInf => Ok true
  | JFloat _ => Ok false
  | _ => Raise TypeError
  end.

(** The chained comparison [0 <= v <= 1]: the second comparison is only
    evaluated when the first holds. *)
Definition in_unit_interval (v : json) : result bool :=
  b <- zero_le v ;;
  if b then le_one v else Ok false.

(** [a and b] on comparisons, [b] being evaluated only when [a] is true. *)
Definition and_then (a : result bool) (b : result bool) : result bool :=
  x <- a ;;
  if x then b else Ok false.

(** ** The data the add-on produces *)

(** One entry of a page's ["positions"]: the coordinates are stored as
    the values read from the payload. *)
Record WordPosition : Type := mkWordPosition {
  wp_text : string;
  wp_x1 : json;
  wp_x2 : json;
  wp_y1 : json;
  wp_y2 : json
}.

(** One entry of the ["pages"] list sent to the DocumentCloud API; the
    ["text"] is whatever value [annotation["text"]] holds. *)
Record Page : Type := mkPage {
  page_number : nat;
  text : json;
  ocr : string;
  positions : list WordPosition
}.

(** A storage blob: its [name], and [json.loads(blob.download_as_string())]
    as [payload], [None] standing for a payload on which [json.loads]
    raises [JSONDecodeError] (a [ValueError]). *)
Record Blob : Type := mkBlob {
  name : string;
  payload : option json
}.

(** The document handle: [set_doc_text] only reads [document.id]. *)
Record Document : Type := mkDocument {
  id : nat;
  title : string;
  page_count : nat
}.

(** The effects a run leaves behind: the messages set with
    [self.set_message], the lines printed, and the [patch] requests sent
    to the API (document id and the ["pages"] payload), oldest first. *)
Record World : Type := mkWorld {
  messages : list string;
  stdout : list string;
  patches : list (nat * list Page)
}.

(** How a method call ends: it returns, [sys.exit(code)] is called, or an
    exception leaves it unhandled. *)
Inductive termination : Type :=
| Returned
| SysExit (code : Z)
| Unhandled (e : exn).

Definition set_message (msg : string) (w : World) : World :=
  mkWorld (messages w ++ [msg]) (stdout w) (patches w).

Definition print (line : string) (w : World) : World :=
  mkWorld (messages w) (stdout w ++ [line]) (patches w).

Definition client_patch (doc_id : nat) (pages : list Page) (w : World) : World :=
  mkWorld (messages w) (stdout w) (patches w ++ [(doc_id, pages)]).

(** [str(e)] for a [KeyError]: the [repr] of the missing key. *)
Definition key_repr (k : pykey) : string :=
  match k with
  | KStr s => ("'" ++ s ++ "'")%string
  | KInt n => NilEmpty.string_of_uint (Nat.to_uint n)
  end.

(** ** [set_doc_text] *)

(** A [for] loop whose body updates a local value and may raise. *)
Fixpoint for_each {A S : Type} (body : A -> S -> result S) (xs : list A) (s : S)
  : result S :=
  match xs with
  | [] => Ok s
  | x :: rest => s' <- body x s ;; for_each body rest s'
  end.

(** [''.join(symbol["text"] for symbol in symbols_list)]: the generator
    is drained first, then every item has to be a [str]. *)
Fixpoint symbol_texts (symbols : list json) : result (list json) :=
  match symbols with
  | [] => Ok []
  | symbol :: rest =>
      t <- getitem_key symbol "text" ;;
      ts <- symbol_texts rest ;;
      Ok (t :: ts)
  end.

Fixpoint join_empty (items : list json) : result string :=
  match items with
  | [] => Ok EmptyString
  | JStr s :: rest => r <- join_empty rest ;; Ok (s ++ r)%string
  | _ :: _ => Raise TypeError
  end.

Definition word_text (word : json) : result string :=
  symbols_list <- getitem_key word "symbols" ;;
  symbols <- iter symbols_list ;;
  ts <- symbol_texts symbols ;;
  join_empty ts.

(** Lines 161-167: the four coordinates [(x1, x2, y1, y2)] of a word. *)
Definition word_coords (word : json) : result (json * json * json * json) :=
  bounding_box <- getitem_key word "boundingBox" ;;
  normalized_vertices <- getitem_key bounding_box "normalizedVertices" ;;
  v <- getitem_idx normalized_vertices 0 ;;
  x1 <- call_get v "x" (JInt 0) ;;
  v <- getitem_idx normalized_vertices 1 ;;
  x2 <- call_get v "x" (JInt 0) ;;
  v <- getitem_idx normalized_vertices 0 ;;
  y1 <- call_get v "y" (JInt 0) ;;
  v <- getitem_idx normalized_vertices 2 ;;
  y2 <- call_get v "y" (JInt 0) ;;
  Ok (x1, x2, y1, y2).

(** Line 171. *)
Definition coords_in_range (x1 x2 y1 y2 : json) : result bool :=
  and_then (in_unit_interval x1)
    (and_then (in_unit_interval x2)
       (and_then (in_unit_interval y1) (in_unit_interval y2))).

(** The body of the innermost loop (lines 161-180), acting on
    [page["positions"]]. *)
Definition word_step (word : json) (positions : list WordPosition)
  : result (list WordPosition) :=
  c <- word_coords word ;;
  let '(x1, x2, y1, y2) := c in
  full_text <- word_text word ;;
  keep <- coords_in_range x1 x2 y1 y2 ;;
  if keep
  then Ok (positions ++ [mkWordPosition full_text x1 x2 y1 y2])
  else Ok positions.

Definition paragraph_step (paragraph : json) (positions : list WordPosition)
  : result (list WordPosition) :=
  words_v <- getitem_key paragraph "words" ;;
  words <- iter words_v ;;
  for_each word_step words positions.

Definition block_step (block : json) (positions : list WordPosition)
  : result (list WordPosition) :=
  paragraphs_v <- getitem_key block "paragraphs" ;;
  paragraphs <- iter paragraphs_v ;;
  for_each paragraph_step paragraphs positions.

Definition ann_page_step (ann_page : json) (positions : list WordPosition)
  : result (list WordPosition) :=
  blocks_v <- getitem_key ann_page "blocks" ;;
  blocks <- iter blocks_v ;;
  for_each block_step blocks positions.

(** The body of the [try] (lines 147-190) for one response unit of the
    blob at index [i]: the page that is appended to [pages]. *)
Definition build_page (i : nat) (text_response : json) : result Page :=
  annotation <- call_get text_response "fullTextAnnotation" JNull ;;
  if truthy annotation
  then
    t <- getitem_key annotation "text" ;;
    pages_v <- getitem_key annotation "pages" ;;
    ann_pages <- iter pages_v ;;
    ps <- for_each ann_page_step ann_pages [] ;;
    Ok (mkPage i t "googlecv" ps)
  else Ok (mkPage i (JStr EmptyString) "googlecv" []).

Definition key_error_message : string :=
  "Key error- ping us at info@documentcloud.org with the document you're trying to OCR".

Definition value_error_message : string :=
  "Value error - Ping us at info@documentcloud.org if you see this more than once.".

(** What stops a loop early: the world at that point and the way the call ends. *)
Definition abort : Type := (World * termination)%type.

(** The two [except] clauses of lines 191-200; any other exception
    leaves the method. *)
Definition on_exception (e : exn) (w : World) : abort :=
  match e with
  | KeyError k =>
      (set_message key_error_message (print (key_repr k) w), SysExit 1)
  | ValueError => (set_message value_error_message w, SysExit 1)
  | _ => (w, Unhandled e)
  end.

(** The loop over the response units of one blob (lines 145-200). *)
Fixpoint responses_loop (i : nat) (units : list json) (pages : list Page) (w : World)
  : list Page * World + abort :=
  match units with
  | [] => inl (pages, w)
  | text_response :: rest =>
      match build_page i text_response with
      | Ok page => responses_loop i rest (pages ++ [page]) w
      | Raise e => inr (on_exception e w)
      end
  end.

(** The body of the outer loop for the blob at index [i] (lines 141-200):
    [json.loads] and [response["responses"]] are outside the [try]. *)
Definition blob_step (i : nat) (blob : Blob) (pages : list Page) (w : World)
  : list Page * World + abort :=
  match payload blob with
  | None => inr (w, Unhandled ValueError)
  | Some response =>
      match getitem_key response "responses" with
      | Raise e => inr (w, Unhandled e)
      | Ok full_text_response =>
          match iter full_text_response with
          | Raise e => inr (w, Unhandled e)
          | Ok units => responses_loop i units pages w
          end
      end
  end.

(** [for i, blob in enumerate(blobs_list)], [i] being the index of the
    first blob of [blobs]. *)
Fixpoint blobs_loop (i : nat) (blobs : list Blob) (pages : list Page) (w : World)
  : list Page * World + abort :=
  match blobs with
  | [] => inl (pages, w)
  | blob :: rest =>
      match blob_step i blob pages w with
      | inl (pages', w') => blobs_loop (S i) rest pages' w'
      | inr a => inr a
      end
  end.

Definition set_doc_text (document : Document) (blobs_list : list Blob) (w : World)
  : World * termination :=
  match blobs_loop 0 blobs_list [] w with
  | inl (pages, w') => (client_patch (id document) pages w', Returned)
  | inr a => a
  end.

(** ** [list_blobs] *)

(** [s.split(sep)] for a non-empty [sep], scanning left to right;
    [skip] counts the characters of a separator just matched that are
    still to be passed over.  The head of the result is the piece being
    read. *)
Fixpoint split_from (sep s : string) (skip : nat) : list string :=
  match s with
  | EmptyString => [EmptyString]
  | String c s' =>
      match skip with
      | S k => split_from sep s' k
      | O =>
          if String.prefix sep s
          then EmptyString :: split_from sep s' (String.length sep - 1)
          else
            match split_from sep s' 0 with
            | piece :: pieces => String c piece :: pieces
            | [] => [String c EmptyString]
            end
      end
  end.

Definition split (s sep : string) : list string := split_from sep s 0.

(** [sorted(l, key=key)]: Python's sort is stable, and a stable sort on a
    key has one possible result; it is computed here by insertion, each
    item going in front of the later items whose key is not smaller. *)
Fixpoint insert_by {A : Type} (key : A -> nat) (x : A) (l : list A) : list A :=
  match l with
  | [] => [x]
  | y :: rest =>
      if key x <=? key y then x :: y :: rest else y :: insert_by key x rest
  end.

Fixpoint sorted {A : Type} (key : A -> nat) (l : list A) : list A :=
  match l with
  | [] => []
  | x :: rest => insert_by key x (sorted key rest)
  end.

(** The storage bucket, as far as the add-on uses it after the upload:
    [self.bucket.list_blobs(prefix=...)], in the order the store lists. *)
Record Bucket : Type := mkBucket {
  bucket_list_blobs : string -> list Blob
}.

(** Line 125: the path below the bucket segment of the destination URI. *)
Definition listing_prefix (gcs_destination_uri : string) : result string :=
  match nth_error (split gcs_destination_uri "//") 1 with
  | None => Raise IndexError
  | Some path => Ok (String.concat "/" (tl (split path "/")))
  end.

Definition list_blobs (bucket : Bucket) (gcs_destination_uri : string)
  : result (list Blob) :=
  prefix <- listing_prefix gcs_destination_uri ;;
  let blobs_list := bucket_list_blobs bucket prefix in
  Ok (sorted (fun blob => String.length (name blob)) blobs_list).

(** ** [vision_method], once [json_ocr] has returned the destination URI *)

Definition vision_method (bucket : Bucket) (document : Document)
  (gcs_destination_uri : string) (w : World) : World * termination :=
  match list_blobs bucket gcs_destination_uri with
  | Raise e => (w, Unhandled e)
  | Ok blobs_list => set_doc_text document blobs_list w
  end.

(** ** Orders on shard keys *)

(** Length first, then the lexicographic order of the characters. *)
Definition length_then_lex (a b : string) : Prop :=
  String.length a < String.length b \/
  (String.length a = String.length b /\ String.leb a b = true).

Definition blob_key (blob : Blob) : nat := String.length (name blob).

(** ** A functional reading of the loops *)

(** The lists produced for the items of [xs], one after the other. *)
Fixpoint gather {A B : Type} (f : A -> result (list B)) (xs : list A)
  : result (list B) :=
  match xs with
  | [] => Ok []
  | x :: rest => l <- f x ;; r <- gather f rest ;; Ok (l ++ r)
  end.

(** [for item in v[k]]: the items visited. *)
Definition items_of (v : json) (k : string) : result (list json) :=
  x <- getitem_key v k ;; iter x.

(** The words of a response unit in the order the loops of lines 157-160
    reach them: page by page, block by block, paragraph by paragraph. *)
Definition paragraph_words (paragraph : json) : result (list json) :=
  items_of paragraph "words".

Definition block_words (block : json) : result (list json) :=
  paragraphs <- items_of block "paragraphs" ;; gather paragraph_words paragraphs.

Definition ann_page_words (ann_page : json) : result (list json) :=
  blocks <- items_of ann_page "blocks" ;; gather block_words blocks.

Definition annotation_words (annotation : json) : result (list json) :=
  ann_pages <- items_of annotation "pages" ;; gather ann_page_words ann_pages.

Definition response_words (text_response : json) : result (list json) :=
  annotation <- call_get text_response "fullTextAnnotation" JNull ;;
  if truthy annotation then annotation_words annotation else Ok [].

(** What one word adds to [page["positions"]]. *)
Definition word_positions (word : json) : result (list WordPosition) :=
  word_step word [].

(** The positions each level of the loops adds. *)
Definition paragraph_positions (paragraph : json) : result (list WordPosition) :=
  ws <- paragraph_words paragraph ;; gather word_positions ws.

Definition block_positions (block : json) : result (list WordPosition) :=
  ps <- items_of block "paragraphs" ;; gather paragraph_positions ps.

Definition ann_page_positions (ann_page : json) : result (list WordPosition) :=
  bs <- items_of ann_page "blocks" ;; gather block_positions bs.

Definition annotation_positions (annotation : json) : result (list WordPosition) :=
  aps <- items_of annotation "pages" ;; gather ann_page_positions aps.

(** ** Coordinates in the unit interval *)

Definition is_number (v : json) : bool :=
  match v with
  | JBool _ | JInt _ | JFloat _ => true
  | _ => false
  end.

(** The number [v] lies in [[0,1]] ([True] is the number 1 and [False]
    the number 0); a value that is not a number does not. *)
Definition value_in_unit (v : json) : Prop :=
  match v with
  | JBool _ => True
  | JInt z => (0 <= z <= 1)%Z
  | JFloat (Finite q) => (0 <= q)%Q /\ (q <= 1)%Q
  | _ => False
  end.

Definition in_unit (v : json) : bool :=
  match v with
  | JBool _ => true
  | JInt z => (0 <=? z)%Z && (z <=? 1)%Z
  | JFloat (Finite q) => Qle_bool 0 q && Qle_bool q 1
  | _ => false
  end.

Definition coords_in_unit (c : json * json * json * json) : bool :=
  let '(x1, x2, y1, y2) := c in
  in_unit x1 && in_unit x2 && in_unit y1 && in_unit y2.

Definition position_in_unit (p : WordPosition) : Prop :=
  value_in_unit (wp_x1 p) /\ value_in_unit (wp_x2 p) /\
  value_in_unit (wp_y1 p) /\ value_in_unit (wp_y2 p).

Definition position_of (t : string) (c : json * json * json * json) : WordPosition :=
  let '(x1, x2, y1, y2) := c in mkWordPosition t x1 x2 y1 y2.

(** The entry a word is expected to leave in the positions: one when its
    four coordinates lie in the unit interval, none otherwise. *)
Definition expected_positions (word : json) : list WordPosition :=
  match word_coords word, word_text word with
  | Ok c, Ok t => if coords_in_unit c then [position_of t c] else []
  | _, _ => []
  end.

(** The concatenation of [texts] in their order, as [str.join] on the
    empty separator gives it. *)
Definition join_texts (texts : list string) : string :=
  String.concat EmptyString texts.

(** [v.get(k, 0)] on the items of a dictionary. *)
Definition field_or_zero (k : string) (fields : list (string * json)) : json :=
  match dict_lookup k fields with
  | Some x => x
  | None => JInt 0
  end.

(** ** Response units of a shard sequence *)

(** The response units of a shard: the items of its ["responses"]
    (none when the payload has no such list). *)
Definition blob_units (blob : Blob) : list json :=
  match payload blob with
  | Some response =>
      match items_of response "responses" with
      | Ok units => units
      | Raise _ => []
      end
  | None => []
  end.

(** The response units of all shards, flattened in shard order, each
    paired with the index of its shard; [i] is the index of the first. *)
Fixpoint indexed_units (i : nat) (blobs : list Blob) : list (nat * json) :=
  match blobs with
  | [] => []
  | blob :: rest => map (pair i) (blob_units blob) ++ indexed_units (S i) rest
  end.

Definition total_units (blobs : list Blob) : nat :=
  list_sum (map (fun blob => List.length (blob_units blob)) blobs).

(** The page numbers a run assigns, from the number of response units
    of each shard: every unit of the shard at index [i] gets [i]. *)
Fixpoint shard_indices (i : nat) (counts : list nat) : list nat :=
  match counts with
  | [] => []
  | n :: rest => repeat i n ++ shard_indices (S i) rest
  end.

Definition unit_counts (blobs : list Blob) : list nat :=
  map (fun blob => List.length (blob_units blob)) blobs.

(** What a caller can tell a run by, apart from the pages patched: the
    messages set and how the call ended. *)
Definition run_report (r : World * termination) : list string * termination :=
  (messages (fst r), snd r).

(** The page built from a response unit without annotation. *)
Definition empty_page (i : nat) : Page := mkPage i (JStr EmptyString) "googlecv" [].

(** ** Well-formed payloads *)

(** A payload of the shape the provider documents: every response unit
    an object, an annotation (when there is one) with its text and its
    pages, blocks, paragraphs and words as lists, every word with three
    readable corners whose coordinates are numbers and with symbols that
    carry a string. *)
Definition valid_symbol (symbol : json) : bool :=
  match getitem_key symbol "text" with
  | Ok (JStr _) => true
  | _ => false
  end.

Definition valid_word (word : json) : bool :=
  match word_coords word, items_of word "symbols" with
  | Ok (x1, x2, y1, y2), Ok symbols =>
      is_number x1 && is_number x2 && is_number y1 && is_number y2 &&
      forallb valid_symbol symbols
  | _, _ => false
  end.

Definition valid_paragraph (paragraph : json) : bool :=
  match paragraph_words paragraph with
  | Ok ws => forallb valid_word ws
  | Raise _ => false
  end.

Definition valid_block (block : json) : bool :=
  match items_of block "paragraphs" with
  | Ok ps => forallb valid_paragraph ps
  | Raise _ => false
  end.

Definition valid_ann_page (ann_page : json) : bool :=
  match items_of ann_page "blocks" with
  | Ok bs => forallb valid_block bs
  | Raise _ => false
  end.

Definition valid_unit (text_response : json) : bool :=
  match call_get text_response "fullTextAnnotation" JNull with
  | Ok annotation =>
      if truthy annotation
      then
        match getitem_key annotation "text", items_of annotation "pages" with
        | Ok _, Ok aps => forallb valid_ann_page aps
        | _, _ => false
        end
      else true
  | Raise _ => false
  end.

Definition valid_shard (blob : Blob) : bool :=
  match payload blob with
  | Some response =>
      match items_of response "responses" with
      | Ok units => forallb valid_unit units
      | Raise _ => false
      end
  | None => false
  end.

(** ** Paths: [os.path] on POSIX *)

(** [sep in s]. *)
Fixpoint contains (sep s : string) : bool :=
  match s with
  | EmptyString => String.prefix sep EmptyString
  | String _ s' => String.prefix sep s || contains sep s'
  end.

(** [s.endswith("/")]. *)
Fixpoint ends_with_slash (s : string) : bool :=
  match s with
  | EmptyString => false
  | String c EmptyString => Ascii.eqb c "/"
  | String _ s' => ends_with_slash s'
  end.

(** One round of the loop of [os.path.join]: a component that starts
    with a slash replaces the path read so far. *)
Definition path_join2 (path b : string) : string :=
  if String.prefix "/" b then b
  else if String.eqb path EmptyString || ends_with_slash path
       then (path ++ b)%string
       else (path ++ "/" ++ b)%string.

(** [os.path.join(a, *p)]. *)
Definition path_join (a : string) (p : list string) : string :=
  fold_left path_join2 p a.

(** [os.path.basename(p)], that is [p[p.rfind("/") + 1:]]: [acc] holds
    what has been read since the last slash. *)
Fixpoint basename_from (p acc : string) : string :=
  match p with
  | EmptyString => acc
  | String c p' =>
      if Ascii.eqb c "/"
      then basename_from p' EmptyString
      else basename_from p' (acc ++ String c EmptyString)%string
  end.

Definition basename (p : string) : string := basename_from p EmptyString.

(** One round of the loop of [os.path.normpath] over the components. *)
Definition normpath_step (initial_slashes : nat) (new_comps : list string)
  (comp : string) : list string :=
  if String.eqb comp EmptyString || String.eqb comp "." then new_comps
  else if negb (String.eqb comp "..")
          || (Nat.eqb initial_slashes 0
              && match new_comps with [] => true | _ => false end)
          || (match new_comps with [] => false | _ => true end
              && String.eqb (last new_comps EmptyString) "..")
       then new_comps ++ [comp]
       else removelast new_comps.

(** [os.path.normpath(path)]. *)
Definition normpath (path : string) : string :=
  if String.eqb path EmptyString then "."
  else
    let initial_slashes :=
      if String.prefix "/" path
      then if String.prefix "//" path && negb (String.prefix "///" path)
           then 2 else 1
      else 0 in
    let comps := fold_left (normpath_step initial_slashes) (split path "/") [] in
    let joined :=
      (String.concat EmptyString (repeat "/" initial_slashes)
       ++ String.concat "/" comps)%string in
    if String.eqb joined EmptyString then "." else joined.

(** ** [json_ocr] *)

Definition bucket_name : string := "documentcloud_cloudvision_ocr".
Definition mime_type : string := "application/pdf".
Definition batch_size : nat := 1.

(** The local values of [json_ocr] (lines 77-98). *)
Definition remote_subdir (input_dir : string) : string :=
  basename (normpath input_dir).

Definition rel_remote_path (input_dir filename : string) : string :=
  path_join (remote_subdir input_dir) [filename].

Definition local_path (input_dir filename : string) : string :=
  path_join input_dir [filename].

Definition gcs_source_uri (input_dir filename : string) : string :=
  path_join "gs://" [bucket_name; rel_remote_path input_dir filename].

Definition gcs_destination_uri (input_dir filename : string) : string :=
  path_join "gs://"
    [bucket_name; remote_subdir input_dir; "json_output";
     (substring 0 60 filename ++ "_")%string].

(** The request of lines 107-111, with the feature of line 34. *)
Record AnnotateRequest : Type := mkAnnotateRequest {
  request_feature : string;
  request_source : string;
  request_mime_type : string;
  request_destination : string;
  request_batch_size : nat
}.

(** What [json_ocr] has asked of the storage and vision clients: the
    uploads (blob name and local file) and the requests, oldest first. *)
Record Cloud : Type := mkCloud {
  uploads : list (string * string);
  requests : list AnnotateRequest
}.

(** The two calls of [json_ocr] that can fail outside the add-on:
    whether [blob.upload_from_filename(path)] succeeds, and whether
    [operation.result(timeout)] returns for a request within the time. *)
Record Services : Type := mkServices {
  upload_from_filename : string -> bool;
  operation_result : AnnotateRequest -> nat -> bool
}.

(** [json_ocr]: the destination URI, or [None] when the upload or the
    job raises. *)
Definition json_ocr (services : Services) (input_dir filename : string) (c : Cloud)
  : Cloud * option string :=
  let blob_name := rel_remote_path input_dir filename in
  let file := local_path input_dir filename in
  if upload_from_filename services file
  then
    let c1 := mkCloud (uploads c ++ [(blob_name, file)]) (requests c) in
    let async_request :=
      mkAnnotateRequest "DOCUMENT_TEXT_DETECTION"
        (gcs_source_uri input_dir filename) mime_type
        (gcs_destination_uri input_dir filename) batch_size in
    let c2 := mkCloud (uploads c1) (requests c1 ++ [async_request]) in
    if operation_result services async_request 360
    then (c2, Some (gcs_destination_uri input_dir filename))
    else (c2, None)
  else (c, None).

(** ** [validate] *)

(** What [validate] reads of the add-on: [get_document_count()],
    [org_id], the documents [get_documents()] yields, and
    [charge_credits], which may set state of its own and raise. *)
Record AddOn : Type := mkAddOn {
  get_document_count : option nat;
  org_id : json;
  get_documents : list Document;
  charge_credits : nat -> World -> World * option exn
}.

Definition no_documents_message : string :=
  "It looks like no documents were selected. Search for some or select them and run again.".

Definition no_organization_message : string := "No organization to charge.".

(** Lines 62-64. *)
Definition count_pages (documents : list Document) : nat :=
  fold_left (fun num_pages document => num_pages + page_count document) documents 0.

(** [validate]: the world it leaves, the amounts it passed to
    [charge_credits], and what it returns or raises. *)
Definition validate (addon : AddOn) (w : World) : World * list nat * result bool :=
  match get_document_count addon with
  | None => (set_message no_documents_message w, [], Ok false)
  | Some _ =>
      if negb (truthy (org_id addon))
      then (set_message no_organization_message w, [], Ok false)
      else
        let num_pages := count_pages (get_documents addon) in
        match charge_credits addon num_pages w with
        | (w', None) => (w', [num_pages], Ok true)
        | (w', Some ValueError) => (w', [num_pages], Ok false)
        | (w', Some e) => (w', [num_pages], Raise e)
        end
  end.

(** ** [vision_method] from the file on, and [main] *)

(** What [main] relies on outside the add-on: whether [os.mkdir(path)]
    succeeds, whether a file can be opened and written, the two calls of
    [json_ocr], and what [self.bucket] lists once the uploads and
    requests of a log have been served. *)
Record Host : Type := mkHost {
  os_mkdir : string -> bool;
  write_file : string -> bool;
  services : Services;
  bucket_after : Cloud -> Bucket
}.

(** How [main] ends: as a method of the add-on ends, or with the
    exception of the named call into the file system or a client. *)
Inductive ending : Type :=
| Ended (t : termination)
| Failed (call : string).

(** [vision_method(document, input_dir, filename)] with its call of
    [json_ocr]. *)
Definition vision_method_of_file (host : Host) (document : Document)
  (input_dir filename : string) (w : World) (c : Cloud) : World * Cloud * ending :=
  match json_ocr (services host) input_dir filename c with
  | (c', None) => (w, c', Failed "json_ocr")
  | (c', Some gcs_destination_uri) =>
      let (w', t) :=
        vision_method (bucket_after host c') document gcs_destination_uri w in
      (w', c', Ended t)
  end.

Definition pdf_name (document : Document) : string :=
  (title document ++ ".pdf")%string.

(** The loop of [main] (lines 219-223). *)
Fixpoint documents_loop (host : Host) (documents : list Document)
  (w : World) (c : Cloud) : World * Cloud * ending :=
  match documents with
  | [] => (w, c, Ended Returned)
  | document :: rest =>
      if write_file host ("./out/" ++ title document ++ ".pdf")
      then
        match vision_method_of_file host document "out" (pdf_name document) w c with
        | (w', c', Ended Returned) => documents_loop host rest w' c'
        | stopped => stopped
        end
      else (w, c, Failed "open")
  end.

(** [main]: the world and the cloud log it leaves, the amounts charged,
    and how it ends. *)
Definition main (host : Host) (addon : AddOn) (w : World) (c : Cloud)
  : World * Cloud * list nat * ending :=
  if os_mkdir host "out"
  then
    match validate addon w with
    | (w', charged, Ok true) =>
        let '(w'', c', e) := documents_loop host (get_documents addon) w' c in
        (w'', c', charged, e)
    | (w', charged, Ok false) => (w', c, charged, Ended Returned)
    | (w', charged, Raise e) => (w', c, charged, Ended (Unhandled e))
    end
  else (w, c, [], Failed "os.mkdir").

(** [isinstance(v, dict)]. *)
Definition is_object (v : json) : bool :=
  match v with
  | JObj _ => true
  | _ => false
  end.

(** ** Sample inputs *)

Definition example_uri : string :=
  "gs://documentcloud_cloudvision_ocr/out/json_output/report.pdf_".

Definition example_document : Document := mkDocument 7 "report" 2.

Definition empty_world : World := mkWorld [] [] [].

(** A shard holding one response unit without annotation. *)
Definition shard (key : string) : Blob :=
  mkBlob key (Some (JObj [("responses", JArr [JObj []])])).

(** A store that lists the three keys in the order of the spec's example. *)
Definition unordered_bucket : Bucket :=
  mkBucket (fun _ => map shard ["p_2_"; "p_10_"; "p_1_"]).

(** A store that lists them in lexicographic order. *)
Definition lex_bucket : Bucket :=
  mkBucket (fun _ => map shard ["p_10_"; "p_1_"; "p_2_"]).

Definition vertex (x y : Q) : json :=
  JObj [("x", JFloat (Finite x)); ("y", JFloat (Finite y))].

(** A word as the provider writes it: its symbols and its corner points. *)
Definition sample_word (symbols : list string) (vertices : list json) : json :=
  JObj [("boundingBox", JObj [("normalizedVertices", JArr vertices)]);
        ("symbols", JArr (map (fun s => JObj [("text", JStr s)]) symbols))].

(** A response unit with one page, one block and one paragraph. *)
Definition sample_unit (t : string) (words : list json) : json :=
  JObj [("fullTextAnnotation",
         JObj [("text", JStr t);
               ("pages",
                JArr [JObj [("blocks",
                  JArr [JObj [("paragraphs",
                    JArr [JObj [("words", JArr words)]])]])]])])].

(** The box of the end-to-end scenario: x1 = 0.1, x2 = 0.3, y1 = 0.05,
    y2 = 0.2, clockwise from the top left corner. *)
Definition box_in_range : list json :=
  [vertex (1#10) (5#100); vertex (3#10) (5#100);
   vertex (3#10) (2#10); vertex (1#10) (2#10)].

(** A box whose right edge lies at x = 1.2. *)
Definition box_out_of_range : list json :=
  [vertex (9#10) (5#100); vertex (12#10) (5#100);
   vertex (12#10) (2#10); vertex (9#10) (2#10)].

(** A box at the left edge of the page: the provider leaves a zero
    coordinate out. *)
Definition box_without_x : list json :=
  [JObj [("y", JFloat (Finite (5#100)))]; vertex (3#10) (5#100);
   vertex (3#10) (2#10); JObj [("y", JFloat (Finite (2#10)))]].

Definition hello : json := sample_word ["H"; "i"] box_in_range.
Definition outside : json := sample_word ["o"; "u"; "t"] box_out_of_range.
Definition edge : json := sample_word ["e"] box_without_x.

Definition hello_position : WordPosition :=
  mkWordPosition "Hi" (JFloat (Finite (1#10))) (JFloat (Finite (3#10)))
    (JFloat (Finite (5#100))) (JFloat (Finite (2#10))).

Definition edge_position : WordPosition :=
  mkWordPosition "e" (JInt 0) (JFloat (Finite (3#10)))
    (JFloat (Finite (5#100))) (JFloat (Finite (2#10))).

Definition sample_response : json :=
  sample_unit "Hi out e Hi" [hello; outside; edge; hello].

Definition sample_page : Page :=
  mkPage 0 (JStr "Hi out e Hi") "googlecv"
    [hello_position; edge_position; hello_position].

Definition shard_of (key : string) (units : list json) : Blob :=
  mkBlob key (Some (JObj [("responses", JArr units)])).

(** Two shards, the first holding two response units. *)
Definition batched_shards : list Blob :=
  [shard_of "p_1_" [sample_response; JObj []]; shard_of "p_2_" [JObj []]].

(** The end-to-end scenario: one shard with a word, one without annotation. *)
Definition scenario_shards : list Blob :=
  [shard_of "p_1_" [sample_unit "Hi" [hello]]; shard_of "p_2_" [JObj []]].

Definition scenario_pages : list Page :=
  [mkPage 0 (JStr "Hi") "googlecv" [hello_position]; empty_page 1].

(** A store with nothing under the prefix. *)
Definition empty_bucket : Bucket := mkBucket (fun _ => []).

(** A store whose only shard holds no response unit. *)
Definition hollow_bucket : Bucket := mkBucket (fun _ => [shard_of "p_1_" []]).

(** A response unit whose annotation lacks its ["text"]. *)
Definition unit_without_text : json :=
  JObj [("fullTextAnnotation", JObj [("pages", JArr [])])].

Definition broken_shards : list Blob :=
  [shard_of "p_1_" [sample_response]; shard_of "p_2_" [unit_without_text]].

(** A host on which every outside call succeeds; the bucket lists a
    shard without annotation after the first request and a shard that
    is not JSON after the second. *)
Definition sample_host : Host :=
  mkHost (fun _ => true) (fun _ => true)
    (mkServices (fun _ => true) (fun _ _ => true))
    (fun c => if List.length (requests c) <=? 1
              then mkBucket (fun _ => [shard "p_1_"])
              else mkBucket (fun _ => [mkBlob "p_1_" None])).

Definition sample_addon : AddOn :=
  mkAddOn (Some 2) (JInt 125) [mkDocument 1 "a" 3; mkDocument 2 "b" 4]
    (fun _ w => (w, None)).

Definition sample_main_run : World * Cloud * list nat * ending :=
  main sample_host sample_addon empty_world (mkCloud [] []).

(** * Properties *)

(** ** The stable sort *)

Section StableSort.
Context {A : Type} (key : A -> nat).

Lemma insert_by_perm (x : A) (l : list A) :
  Permutation (x :: l) (insert_by key x l).
Proof.
  induction l as [|y rest IH]; simpl.
  - apply Permutation_refl.
  - destruct (key x <=? key y).
    + apply Permutation_refl.
    + eapply perm_trans; [apply perm_swap|].
      apply perm_skip, IH.
Qed.

Lemma sorted_perm (l : list A) : Permutation l (sorted key l).
Proof.
  induction l as [|x rest IH]; simpl.
  - apply perm_nil.
  - eapply perm_trans; [apply perm_skip, IH|apply insert_by_perm].
Qed.

(** Inserting keeps a list sorted for any order [R] that agrees with
    the keys: [x] may go in front of everything with a key at least
    its own, and behind everything with a smaller key. *)
Lemma insert_by_sorted (R : A -> A -> Prop) (x : A) (l : list A) :
  (forall y, In y l -> key x <= key y -> R x y) ->
  (forall y, In y l -> key y < key x -> R y x) ->
  (forall y z, R y z -> key y <= key z) ->
  StronglySorted R l -> StronglySorted R (insert_by key x l).
Proof.
  intros Hfront Hback Hmono Hs.
  induction Hs as [|y rest Hrest IH Hall]; simpl.
  - constructor; constructor.
  - destruct (key x <=? key y) eqn:E.
    + apply Nat.leb_le in E.
      constructor; [constructor; assumption|].
      constructor.
      * apply Hfront; [left; reflexivity|assumption].
      * rewrite Forall_forall in *. intros z Hz.
        apply Hfront; [right; assumption|].
        specialize (Hall z Hz). apply Hmono in Hall. lia.
    + apply Nat.leb_gt in E.
      constructor.
      * apply IH; intros; [apply Hfront|apply Hback]; auto; right; auto.
      * rewrite Forall_forall in *. intros z Hz.
        apply (Permutation_in z (Permutation_sym (insert_by_perm x rest))) in Hz.
        destruct Hz as [<-|Hz]; [|auto].
        apply Hback; [left; reflexivity|assumption].
Qed.

Lemma sorted_by_key (l : list A) :
  StronglySorted (fun a b => key a <= key b) (sorted key l).
Proof.
  induction l as [|x rest IH]; simpl.
  - constructor.
  - apply insert_by_sorted; auto; lia.
Qed.

(** Stability: the items of any one key keep their order. *)
Lemma filter_insert_by (n : nat) (x : A) (l : list A) :
  filter (fun a => key a =? n) (insert_by key x l) =
  filter (fun a => key a =? n) (x :: l).
Proof.
  induction l as [|y rest IH]; [reflexivity|].
  simpl insert_by.
  destruct (key x <=? key y) eqn:E; [reflexivity|].
  apply Nat.leb_gt in E.
  change (filter (fun a => key a =? n) (y :: insert_by key x rest))
    with (if key y =? n
          then y :: filter (fun a => key a =? n) (insert_by key x rest)
          else filter (fun a => key a =? n) (insert_by key x rest)).
  rewrite IH. simpl.
  destruct (key x =? n) eqn:Ex, (key y =? n) eqn:Ey; try reflexivity.
  apply Nat.eqb_eq in Ex, Ey. lia.
Qed.

Lemma sorted_stable (n : nat) (l : list A) :
  filter (fun a => key a =? n) (sorted key l) = filter (fun a => key a =? n) l.
Proof.
  induction l as [|x rest IH]; [reflexivity|].
  simpl sorted. rewrite filter_insert_by. simpl. rewrite IH. reflexivity.
Qed.

(** When the input is already in some order [R2], the result is
    ordered by key first and by [R2] among equal keys. *)
Lemma sorted_refines (R2 : A -> A -> Prop) (l : list A) :
  StronglySorted R2 l ->
  StronglySorted (fun a b => key a < key b \/ (key a = key b /\ R2 a b))
    (sorted key l).
Proof.
  induction 1 as [|x rest Hrest IH Hall]; simpl.
  - constructor.
  - apply insert_by_sorted; try assumption.
    + intros y Hy Hle.
      apply (Permutation_in y (Permutation_sym (sorted_perm rest))) in Hy.
      rewrite Forall_forall in Hall. specialize (Hall y Hy).
      destruct (Nat.eq_dec (key x) (key y)); [right; auto|left; lia].
    + intros y _ Hlt. left. assumption.
    + intros y z [Hlt|[Heq _]]; lia.
Qed.
Lemma filter_key_head (n : nat) (x : A) (l : list A) :
  key x = n ->
  filter (fun a => key a =? n) (x :: l) = x :: filter (fun a => key a =? n) l.
Proof. intros <-. simpl. rewrite Nat.eqb_refl. reflexivity. Qed.

Lemma filter_key_in (x : A) (l : list A) :
  In x l <-> In x (filter (fun a => key a =? key x) l).
Proof.
  rewrite filter_In, Nat.eqb_eq. tauto.
Qed.

(** A stable sort has one result: two lists sorted by key that agree,
    key by key, on the order of their items are the same list.  Any
    stable sort on the key thus returns what [sorted] returns. *)
Lemma stable_sort_unique (l1 l2 : list A) :
  StronglySorted (fun a b => key a <= key b) l1 ->
  StronglySorted (fun a b => key a <= key b) l2 ->
  (forall n, filter (fun a => key a =? n) l1 = filter (fun a => key a =? n) l2) ->
  l1 = l2.
Proof.
  intros H1. revert l2.
  induction H1 as [|x r1 Hr1 IH Hx]; intros l2 H2 Heq.
  - destruct l2 as [|y r2]; [reflexivity|].
    specialize (Heq (key y)). rewrite (filter_key_head (key y) y r2 eq_refl) in Heq.
    discriminate.
  - destruct H2 as [|y r2 Hr2 Hy].
    + specialize (Heq (key x)).
      rewrite (filter_key_head (key x) x r1 eq_refl) in Heq. discriminate.
    + rewrite Forall_forall in Hx, Hy.
      assert (Hxy : key x = key y).
      { apply Nat.le_antisymm.
        - assert (Hin : In y (x :: r1)).
          { apply (proj2 (filter_key_in y (x :: r1))). rewrite Heq.
            apply (proj1 (filter_key_in y (y :: r2))). left; reflexivity. }
          destruct Hin as [->|Hin]; [lia|apply Hx; assumption].
        - assert (Hin : In x (y :: r2)).
          { apply (proj2 (filter_key_in x (y :: r2))). rewrite <- Heq.
            apply (proj1 (filter_key_in x (x :: r1))). left; reflexivity. }
          destruct Hin as [->|Hin]; [lia|apply Hy; assumption]. }
      pose proof (Heq (key x)) as Hk.
      rewrite (filter_key_head (key x) x r1 eq_refl) in Hk.
      rewrite (filter_key_head (key x) y r2 (eq_sym Hxy)) in Hk.
      injection Hk as <- Hk. f_equal.
      apply IH; [assumption|]. intros n.
      specialize (Heq n). simpl in Heq.
      destruct (key x =? n); [injection Heq as Heq|]; assumption.
Qed.

End StableSort.

(** ** The result locator *)

Lemma list_blobs_ok (bucket : Bucket) (uri : string) (blobs : list Blob) :
  list_blobs bucket uri = Ok blobs ->
  exists prefix,
    listing_prefix uri = Ok prefix /\
    blobs = sorted blob_key (bucket_list_blobs bucket prefix).
Proof.
  unfold list_blobs. destruct (listing_prefix uri) as [prefix|e]; simpl.
  - intros [= <-]. exists prefix. split; reflexivity.
  - discriminate.
Qed.

(** C1, as stated, fails: the keys listed as ["p_2_"; "p_10_"; "p_1_"]
    come back as ["p_2_"; "p_1_"; "p_10_"], the two keys of length four
    keeping their listing order, which is not the length-then-lex order
    ["p_1_"; "p_2_"; "p_10_"]. *)
Lemma list_blobs_keeps_listing_order_on_ties :
  exists blobs,
    list_blobs unordered_bucket example_uri = Ok blobs /\
    map name blobs = ["p_2_"; "p_1_"; "p_10_"] /\
    map name blobs <> ["p_1_"; "p_2_"; "p_10_"] /\
    ~ StronglySorted length_then_lex (map name blobs).
Proof.
  eexists. split; [reflexivity|]. split; [reflexivity|]. split.
  - discriminate.
  - simpl. intros Hs. inversion Hs as [|a l _ Hall]; subst.
    inversion Hall as [|b l' Hab _]; subst.
    destruct Hab as [Hlt|[_ Hleb]].
    + simpl in Hlt. lia.
    + vm_compute in Hleb. discriminate.
Qed.

(** C1, amended: [list_blobs] returns the listing under the prefix
    sorted by key length ascending, the keys of one length keeping their
    listing order; so when the store lists the keys in lexicographic
    order the result is in length-then-lex order. *)
Theorem list_blobs_sorts_by_length_stably
  (bucket : Bucket) (uri : string) (blobs : list Blob) :
  list_blobs bucket uri = Ok blobs ->
  exists prefix,
    listing_prefix uri = Ok prefix /\
    Permutation (bucket_list_blobs bucket prefix) blobs /\
    StronglySorted (fun a b => blob_key a <= blob_key b) blobs /\
    (forall n,
        filter (fun b => blob_key b =? n) blobs =
        filter (fun b => blob_key b =? n) (bucket_list_blobs bucket prefix)) /\
    (StronglySorted (fun a b => String.leb (name a) (name b) = true)
       (bucket_list_blobs bucket prefix) ->
     StronglySorted (fun a b => length_then_lex (name a) (name b)) blobs).
Proof.
  intros H. apply list_blobs_ok in H. destruct H as (prefix & Hp & ->).
  exists prefix. split; [assumption|]. split; [apply sorted_perm|].
  split; [apply (sorted_by_key blob_key)|].
  split; [intros n; apply sorted_stable|].
  intros Hlex. apply (sorted_refines blob_key _ _ Hlex).
Qed.

Lemma list_blobs_sorts_by_length_stably_witness :
  list_blobs lex_bucket example_uri = Ok (map shard ["p_1_"; "p_2_"; "p_10_"]) /\
  StronglySorted (fun a b => length_then_lex (name a) (name b))
    (map shard ["p_1_"; "p_2_"; "p_10_"]).
Proof.
  split; [reflexivity|].
  destruct (list_blobs_sorts_by_length_stably lex_bucket example_uri
              (map shard ["p_1_"; "p_2_"; "p_10_"]) eq_refl)
    as (prefix & _ & _ & _ & _ & Hlex).
  apply Hlex. simpl.
  repeat constructor.
Defined.

(** ** The loops as flat maps *)

Lemma bind_ok {A B : Type} (m : result A) (k : A -> result B) (b : B) :
  bind m k = Ok b -> exists a, m = Ok a /\ k a = Ok b.
Proof.
  destruct m as [a|e]; simpl; [|discriminate].
  intros H. exists a. split; [reflexivity|assumption].
Qed.

Tactic Notation "bind_inv" hyp(H) "as" ident(x) ident(Hx) :=
  apply bind_ok in H; destruct H as (x & Hx & H).

Lemma gather_app {A B : Type} (f : A -> result (list B)) (xs ys : list A) :
  gather f (xs ++ ys) =
  (l <- gather f xs ;; r <- gather f ys ;; Ok (l ++ r)).
Proof.
  induction xs as [|x rest IH]; simpl.
  - destruct (gather f ys); reflexivity.
  - destruct (f x) as [l|e]; simpl; [|reflexivity].
    rewrite IH. destruct (gather f rest) as [l'|e]; simpl; [|reflexivity].
    destruct (gather f ys) as [r|e]; simpl; [|reflexivity].
    rewrite app_assoc. reflexivity.
Qed.

(** A loop whose body appends what [f] yields computes [gather f]. *)
Lemma for_each_gather {A B : Type}
  (step : A -> list B -> result (list B)) (f : A -> result (list B)) :
  (forall x acc, step x acc = (l <- f x ;; Ok (acc ++ l))) ->
  forall xs acc, for_each step xs acc = (l <- gather f xs ;; Ok (acc ++ l)).
Proof.
  intros Hstep. induction xs as [|x rest IH]; intros acc; simpl.
  - rewrite app_nil_r. reflexivity.
  - rewrite Hstep. destruct (f x) as [l|e]; simpl; [|reflexivity].
    rewrite IH. destruct (gather f rest) as [r|e]; simpl; [|reflexivity].
    rewrite app_assoc. reflexivity.
Qed.

(** Two nested loops visit the concatenation of the inner lists. *)
Lemma gather_nested {A B C : Type}
  (f : A -> result (list C)) (g : A -> result (list B)) (h : B -> result (list C)) :
  (forall x ps, f x = Ok ps -> exists ys, g x = Ok ys /\ gather h ys = Ok ps) ->
  forall xs ps, gather f xs = Ok ps ->
  exists ys, gather g xs = Ok ys /\ gather h ys = Ok ps.
Proof.
  intros Hf. induction xs as [|x rest IH]; simpl; intros ps H.
  - injection H as <-. exists []. split; reflexivity.
  - bind_inv H as l Hl. bind_inv H as r Hr. injection H as <-.
    destruct (Hf _ _ Hl) as (ys0 & Hg & Hh).
    destruct (IH _ Hr) as (ys & Hys & Hps).
    exists (ys0 ++ ys). rewrite Hg. simpl. rewrite Hys. simpl.
    split; [reflexivity|].
    rewrite gather_app, Hh, Hps. reflexivity.
Qed.

Lemma gather_ok {A B : Type} (f : A -> result (list B)) (xs : list A) (ps : list B) :
  gather f xs = Ok ps ->
  Forall (fun x => exists l, f x = Ok l) xs /\
  ps = flat_map (fun x => match f x with Ok l => l | Raise _ => [] end) xs.
Proof.
  revert ps. induction xs as [|x rest IH]; simpl; intros ps H.
  - injection H as <-. split; [constructor|reflexivity].
  - bind_inv H as l Hl. bind_inv H as r Hr. injection H as <-.
    destruct (IH _ Hr) as [Hall ->]. rewrite Hl. split; [|reflexivity].
    constructor; [exists l; assumption|assumption].
Qed.

(** ** The range check *)

Lemma in_unit_spec (v : json) : in_unit v = true <-> value_in_unit v.
Proof.
  destruct v as [|b|z|[q| | |]|s|items|fields]; simpl;
    try (split; [discriminate|contradiction]).
  - split; auto.
  - rewrite andb_true_iff, Z.leb_le, Z.leb_le. reflexivity.
  - rewrite andb_true_iff, !Qle_bool_iff. reflexivity.
Qed.

Lemma in_unit_interval_number (v : json) :
  is_number v = true -> in_unit_interval v = Ok (in_unit v).
Proof.
  destruct v as [|b|z|[q| | |]|s|items|fields]; simpl;
    try discriminate; intros _; try reflexivity.
  - unfold in_unit_interval; simpl. destruct (0 <=? z)%Z; reflexivity.
  - unfold in_unit_interval; simpl. destruct (Qle_bool 0 q); reflexivity.
Qed.

Lemma in_unit_interval_ok (v : json) (b : bool) :
  in_unit_interval v = Ok b -> b = in_unit v /\ is_number v = true.
Proof.
  intros H. destruct (is_number v) eqn:E.
  - rewrite (in_unit_interval_number v E) in H. injection H as <-. auto.
  - destruct v as [|?|?|?|s|items|fields]; simpl in E; discriminate.
Qed.

Lemma coords_in_range_ok (x1 x2 y1 y2 : json) (b : bool) :
  coords_in_range x1 x2 y1 y2 = Ok b -> b = coords_in_unit (x1, x2, y1, y2).
Proof.
  unfold coords_in_range, and_then, coords_in_unit. intros H.
  bind_inv H as b1 H1. apply in_unit_interval_ok in H1 as [-> _].
  destruct (in_unit x1); simpl; [|injection H as <-; reflexivity].
  bind_inv H as b2 H2. apply in_unit_interval_ok in H2 as [-> _].
  destruct (in_unit x2); simpl; [|injection H as <-; reflexivity].
  bind_inv H as b3 H3. apply in_unit_interval_ok in H3 as [-> _].
  destruct (in_unit y1); simpl; [|injection H as <-; reflexivity].
  apply in_unit_interval_ok in H as [-> _]. reflexivity.
Qed.

Lemma coords_in_range_numbers (x1 x2 y1 y2 : json) :
  is_number x1 = true -> is_number x2 = true ->
  is_number y1 = true -> is_number y2 = true ->
  coords_in_range x1 x2 y1 y2 = Ok (coords_in_unit (x1, x2, y1, y2)).
Proof.
  intros N1 N2 N3 N4. unfold coords_in_range, and_then, coords_in_unit.
  rewrite !in_unit_interval_number by assumption. simpl.
  destruct (in_unit x1), (in_unit x2), (in_unit y1); reflexivity.
Qed.

(** ** One word *)

Lemma word_step_app (word : json) (acc : list WordPosition) :
  word_step word acc = (l <- word_positions word ;; Ok (acc ++ l)).
Proof.
  unfold word_positions, word_step.
  destruct (word_coords word) as [[[[x1 x2] y1] y2]|e]; simpl; [|reflexivity].
  destruct (word_text word) as [t|e]; simpl; [|reflexivity].
  destruct (coords_in_range x1 x2 y1 y2) as [[|]|e]; simpl;
    try reflexivity.
  rewrite app_nil_r. reflexivity.
Qed.

Lemma word_positions_ok (word : json) (l : list WordPosition) :
  word_positions word = Ok l ->
  exists c t,
    word_coords word = Ok c /\ word_text word = Ok t /\
    l = (if coords_in_unit c then [position_of t c] else []) /\
    l = expected_positions word.
Proof.
  unfold word_positions, word_step, expected_positions. intros H.
  bind_inv H as c Hc. destruct c as [[[x1 x2] y1] y2].
  bind_inv H as t Ht. bind_inv H as keep Hk.
  apply coords_in_range_ok in Hk. subst keep.
  exists (x1, x2, y1, y2), t. rewrite Hc, Ht.
  split; [reflexivity|]. split; [reflexivity|].
  destruct (coords_in_unit (x1, x2, y1, y2)); injection H as <-; auto.
Qed.

(** ** The nested loops of one response unit *)

Lemma paragraph_step_app (paragraph : json) (acc : list WordPosition) :
  paragraph_step paragraph acc =
  (l <- paragraph_positions paragraph ;; Ok (acc ++ l)).
Proof.
  unfold paragraph_step, paragraph_positions, paragraph_words, items_of.
  destruct (getitem_key paragraph "words") as [v|e]; simpl; [|reflexivity].
  destruct (iter v) as [ws|e]; simpl; [|reflexivity].
  apply for_each_gather, word_step_app.
Qed.

Lemma block_step_app (block : json) (acc : list WordPosition) :
  block_step block acc = (l <- block_positions block ;; Ok (acc ++ l)).
Proof.
  unfold block_step, block_positions, items_of.
  destruct (getitem_key block "paragraphs") as [v|e]; simpl; [|reflexivity].
  destruct (iter v) as [ps|e]; simpl; [|reflexivity].
  apply for_each_gather, paragraph_step_app.
Qed.

Lemma ann_page_step_app (ann_page : json) (acc : list WordPosition) :
  ann_page_step ann_page acc =
  (l <- ann_page_positions ann_page ;; Ok (acc ++ l)).
Proof.
  unfold ann_page_step, ann_page_positions, items_of.
  destruct (getitem_key ann_page "blocks") as [v|e]; simpl; [|reflexivity].
  destruct (iter v) as [bs|e]; simpl; [|reflexivity].
  apply for_each_gather, block_step_app.
Qed.

(** The positions of a level are those of the words below it. *)
Lemma paragraph_positions_words (paragraph : json) (ps : list WordPosition) :
  paragraph_positions paragraph = Ok ps ->
  exists ws, paragraph_words paragraph = Ok ws /\ gather word_positions ws = Ok ps.
Proof.
  unfold paragraph_positions. intros H. bind_inv H as ws Hws.
  exists ws. split; assumption.
Qed.

Lemma block_positions_words (block : json) (ps : list WordPosition) :
  block_positions block = Ok ps ->
  exists ws, block_words block = Ok ws /\ gather word_positions ws = Ok ps.
Proof.
  unfold block_positions, block_words. intros H. bind_inv H as xs Hxs.
  rewrite Hxs. simpl.
  exact (gather_nested _ _ _ paragraph_positions_words xs ps H).
Qed.

Lemma ann_page_positions_words (ann_page : json) (ps : list WordPosition) :
  ann_page_positions ann_page = Ok ps ->
  exists ws, ann_page_words ann_page = Ok ws /\ gather word_positions ws = Ok ps.
Proof.
  unfold ann_page_positions, ann_page_words. intros H. bind_inv H as xs Hxs.
  rewrite Hxs. simpl.
  exact (gather_nested _ _ _ block_positions_words xs ps H).
Qed.

Lemma annotation_positions_words (annotation : json) (ps : list WordPosition) :
  annotation_positions annotation = Ok ps ->
  exists ws, annotation_words annotation = Ok ws /\ gather word_positions ws = Ok ps.
Proof.
  unfold annotation_positions, annotation_words. intros H. bind_inv H as xs Hxs.
  rewrite Hxs. simpl.
  exact (gather_nested _ _ _ ann_page_positions_words xs ps H).
Qed.

(** [build_page] in closed form. *)
Lemma build_page_eq (i : nat) (text_response : json) :
  build_page i text_response =
  (annotation <- call_get text_response "fullTextAnnotation" JNull ;;
   if truthy annotation
   then
     t <- getitem_key annotation "text" ;;
     ps <- annotation_positions annotation ;;
     Ok (mkPage i t "googlecv" ps)
   else Ok (mkPage i (JStr EmptyString) "googlecv" [])).
Proof.
  unfold build_page, annotation_positions, items_of.
  destruct (call_get text_response "fullTextAnnotation" JNull) as [a|e];
    simpl; [|reflexivity].
  destruct (truthy a); [|reflexivity].
  destruct (getitem_key a "text") as [t|e]; simpl; [|reflexivity].
  destruct (getitem_key a "pages") as [v|e]; simpl; [|reflexivity].
  destruct (iter v) as [aps|e]; simpl; [|reflexivity].
  rewrite (for_each_gather _ _ ann_page_step_app). simpl.
  destruct (gather ann_page_positions aps); reflexivity.
Qed.

(** The positions of an emitted page are those of the words of its
    response unit, taken in the order of the traversal. *)
Lemma build_page_positions (i : nat) (text_response : json) (page : Page) :
  build_page i text_response = Ok page ->
  exists words,
    response_words text_response = Ok words /\
    gather word_positions words = Ok (positions page).
Proof.
  rewrite build_page_eq. unfold response_words. intros H.
  bind_inv H as a Ha. rewrite Ha. simpl.
  destruct (truthy a).
  - bind_inv H as t Ht. bind_inv H as ps Hps. injection H as <-. simpl.
    apply annotation_positions_words. assumption.
  - injection H as <-. exists []. split; reflexivity.
Qed.

Lemma build_page_number (i : nat) (text_response : json) (page : Page) :
  build_page i text_response = Ok page -> page_number page = i.
Proof.
  rewrite build_page_eq. intros H. bind_inv H as a Ha.
  destruct (truthy a).
  - bind_inv H as t Ht. bind_inv H as ps Hps. injection H as <-. reflexivity.
  - injection H as <-. reflexivity.
Qed.

Example build_page_sample : build_page 0 sample_response = Ok sample_page.
Proof. reflexivity. Qed.

Lemma coords_in_unit_spec (t : string) (c : json * json * json * json) :
  coords_in_unit c = true <-> position_in_unit (position_of t c).
Proof.
  destruct c as [[[x1 x2] y1] y2]. unfold coords_in_unit, position_in_unit. simpl.
  rewrite !andb_true_iff, !in_unit_spec. tauto.
Qed.

Lemma gather_word_positions (words : list json) (ps : list WordPosition) :
  gather word_positions words = Ok ps ->
  ps = flat_map expected_positions words /\
  Forall (fun word =>
            exists c t, word_coords word = Ok c /\ word_text word = Ok t /\
                        expected_positions word =
                        if coords_in_unit c then [position_of t c] else [])
         words.
Proof.
  revert ps. induction words as [|w rest IH]; simpl; intros ps H.
  - injection H as <-. split; [reflexivity|constructor].
  - bind_inv H as l Hl. bind_inv H as r Hr. injection H as <-.
    destruct (IH _ Hr) as [-> Hall].
    apply word_positions_ok in Hl. destruct Hl as (c & t & Hc & Ht & H1 & H2).
    split; [rewrite H2; reflexivity|].
    constructor; [|assumption].
    exists c, t. repeat split; try assumption. congruence.
Qed.

(** ** The parser, word by word *)

(** C4: for every word of an emitted page, the word's position is in
    the page's positions exactly when its four coordinates lie in
    [[0,1]]; the step of a word outside the range leaves the positions
    gathered so far as they are, the step of a word inside appends its
    position, and every position of the page lies in the range. *)
Theorem position_kept_iff_coords_in_unit
  (i : nat) (text_response : json) (page : Page) :
  build_page i text_response = Ok page ->
  exists words,
    response_words text_response = Ok words /\
    (forall word, In word words ->
       exists c t,
         word_coords word = Ok c /\ word_text word = Ok t /\
         (In (position_of t c) (positions page) <->
          position_in_unit (position_of t c)) /\
         (forall acc, position_in_unit (position_of t c) ->
                      word_step word acc = Ok (acc ++ [position_of t c])) /\
         (forall acc, ~ position_in_unit (position_of t c) ->
                      word_step word acc = Ok acc)) /\
    Forall position_in_unit (positions page).
Proof.
  intros H. apply build_page_positions in H. destruct H as (words & Hw & Hg).
  exists words. split; [assumption|].
  pose proof (gather_ok _ _ _ Hg) as [Hok _].
  apply gather_word_positions in Hg. destruct Hg as [Hps Hall].
  rewrite Forall_forall in Hall, Hok.
  assert (Hin : Forall position_in_unit (positions page)).
  { rewrite Hps. apply Forall_forall. intros p Hp.
    apply in_flat_map in Hp. destruct Hp as (w & Hw' & Hp).
    destruct (Hall w Hw') as (c & t & _ & _ & He). rewrite He in Hp.
    destruct (coords_in_unit c) eqn:E; [|contradiction].
    destruct Hp as [<-|[]]. apply coords_in_unit_spec. assumption. }
  split; [|assumption].
  intros word Hword. destruct (Hall word Hword) as (c & t & Hc & Ht & He).
  destruct (Hok word Hword) as (l & Hl).
  exists c, t. split; [assumption|]. split; [assumption|].
  pose proof (word_positions_ok _ _ Hl) as (c' & t' & Hc' & Ht' & Hl' & _).
  assert (c' = c) by congruence. assert (t' = t) by congruence. subst c' t'.
  split; [split|split].
  - intros Hp. rewrite Forall_forall in Hin. apply Hin. assumption.
  - intros Hu. apply (coords_in_unit_spec t) in Hu.
    rewrite Hps. apply in_flat_map. exists word. split; [assumption|].
    rewrite He, Hu. left. reflexivity.
  - intros acc Hu. apply (coords_in_unit_spec t) in Hu.
    rewrite word_step_app, Hl, Hl', Hu. reflexivity.
  - intros acc Hu. rewrite word_step_app, Hl, Hl'.
    destruct (coords_in_unit c) eqn:E.
    + exfalso. apply Hu, coords_in_unit_spec. assumption.
    + simpl. rewrite app_nil_r. reflexivity.
Qed.

Lemma position_kept_iff_coords_in_unit_witness :
  exists words,
    response_words sample_response = Ok words /\
    (forall word, In word words ->
       exists c t,
         word_coords word = Ok c /\ word_text word = Ok t /\
         (In (position_of t c) (positions sample_page) <->
          position_in_unit (position_of t c)) /\
         (forall acc, position_in_unit (position_of t c) ->
                      word_step word acc = Ok (acc ++ [position_of t c])) /\
         (forall acc, ~ position_in_unit (position_of t c) ->
                      word_step word acc = Ok acc)) /\
    Forall position_in_unit (positions sample_page).
Proof.
  apply (position_kept_iff_coords_in_unit 0 sample_response sample_page).
  reflexivity.
Defined.

(** The word of [sample_response] whose box reaches x = 1.2 is dropped,
    its two neighbours are kept. *)
Example outside_word_dropped_alone :
  word_step outside [hello_position] = Ok [hello_position] /\
  word_step edge [hello_position] = Ok [hello_position; edge_position].
Proof. split; reflexivity. Qed.

(** C6: the coordinates of a word come from fixed corners of its
    [normalizedVertices]: x1 is the x of vertex 0, x2 the x of vertex 1,
    y1 the y of vertex 0 and y2 the y of vertex 2; a vertex that lacks
    the field gives 0 and raises nothing, and these are the values
    stored in the word's position. *)
Theorem word_coords_vertex_indexing
  (word box : json) (vertices : list json) (v0 v1 v2 : list (string * json)) :
  getitem_key word "boundingBox" = Ok box ->
  getitem_key box "normalizedVertices" = Ok (JArr vertices) ->
  nth_error vertices 0 = Some (JObj v0) ->
  nth_error vertices 1 = Some (JObj v1) ->
  nth_error vertices 2 = Some (JObj v2) ->
  word_coords word =
    Ok (field_or_zero "x" v0, field_or_zero "x" v1,
        field_or_zero "y" v0, field_or_zero "y" v2) /\
  (dict_lookup "x" v0 = None -> field_or_zero "x" v0 = JInt 0) /\
  (dict_lookup "x" v1 = None -> field_or_zero "x" v1 = JInt 0) /\
  (dict_lookup "y" v0 = None -> field_or_zero "y" v0 = JInt 0) /\
  (dict_lookup "y" v2 = None -> field_or_zero "y" v2 = JInt 0) /\
  (forall t acc p,
      word_text word = Ok t ->
      word_step word acc = Ok (acc ++ [p]) ->
      p = mkWordPosition t (field_or_zero "x" v0) (field_or_zero "x" v1)
            (field_or_zero "y" v0) (field_or_zero "y" v2)).
Proof.
  intros Hbox Hnv H0 H1 H2.
  assert (Hc : word_coords word =
               Ok (field_or_zero "x" v0, field_or_zero "x" v1,
                   field_or_zero "y" v0, field_or_zero "y" v2)).
  { unfold word_coords. rewrite Hbox. simpl. rewrite Hnv.
    unfold getitem_idx, bind, call_get, field_or_zero.
    rewrite H0, H1, H2.
    destruct (dict_lookup "x" v0), (dict_lookup "x" v1),
      (dict_lookup "y" v0), (dict_lookup "y" v2); reflexivity. }
  split; [exact Hc|].
  unfold field_or_zero.
  repeat (split; [intros ->; reflexivity|]).
  intros t acc p Ht Hstep.
  unfold word_step in Hstep. rewrite Hc, Ht in Hstep. simpl in Hstep.
  bind_inv Hstep as keep Hk. destruct keep; injection Hstep as Hstep.
  - apply app_inv_head in Hstep. injection Hstep as <-. reflexivity.
  - exfalso. apply (f_equal (@List.length _)) in Hstep.
    rewrite length_app in Hstep. simpl in Hstep. lia.
Qed.

Lemma word_coords_vertex_indexing_witness :
  word_coords edge =
    Ok (JInt 0, JFloat (Finite (3#10)),
        JFloat (Finite (5#100)), JFloat (Finite (2#10))) /\
  word_step edge [] = Ok [edge_position].
Proof.
  destruct (word_coords_vertex_indexing edge
              (JObj [("normalizedVertices", JArr box_without_x)])
              box_without_x
              [("y", JFloat (Finite (5#100)))]
              [("x", JFloat (Finite (3#10))); ("y", JFloat (Finite (5#100)))]
              [("x", JFloat (Finite (3#10))); ("y", JFloat (Finite (2#10)))]
              eq_refl eq_refl eq_refl eq_refl eq_refl)
    as (Hc & _).
  split; [exact Hc|reflexivity].
Defined.

(** ** Word text and order of the positions *)

Lemma append_empty_r (s : string) : (s ++ EmptyString)%string = s.
Proof. induction s as [|c s IH]; simpl; [|rewrite IH]; reflexivity. Qed.

Lemma concat_empty_cons (s : string) (rest : list string) :
  join_texts (s :: rest) = (s ++ join_texts rest)%string.
Proof.
  unfold join_texts. destruct rest as [|s' rest]; simpl; [|reflexivity].
  symmetry. apply append_empty_r.
Qed.

Lemma symbol_texts_ok (symbols ts : list json) :
  symbol_texts symbols = Ok ts ->
  Forall2 (fun symbol t => getitem_key symbol "text" = Ok t) symbols ts.
Proof.
  revert ts. induction symbols as [|symbol rest IH]; simpl; intros ts H.
  - injection H as <-. constructor.
  - bind_inv H as t Ht. bind_inv H as ts' Hts. injection H as <-.
    constructor; [assumption|apply IH; assumption].
Qed.

Lemma join_empty_ok (items : list json) (s : string) :
  join_empty items = Ok s ->
  exists texts, items = map JStr texts /\ s = join_texts texts.
Proof.
  revert s. induction items as [|item rest IH]; simpl; intros s H.
  - injection H as <-. exists []. split; reflexivity.
  - destruct item as [|?|?|?|s0|?|?]; try discriminate.
    bind_inv H as r Hr. injection H as <-.
    destruct (IH _ Hr) as (texts & -> & ->).
    exists (s0 :: texts). split; [reflexivity|].
    rewrite concat_empty_cons. reflexivity.
Qed.

(** The text of a word is the concatenation of the texts of its symbols. *)
Lemma word_text_ok (word : json) (t : string) :
  word_text word = Ok t ->
  exists symbols texts,
    items_of word "symbols" = Ok symbols /\
    Forall2 (fun symbol s => getitem_key symbol "text" = Ok (JStr s)) symbols texts /\
    t = join_texts texts.
Proof.
  unfold word_text, items_of. intros H.
  bind_inv H as v Hv. bind_inv H as symbols Hs. bind_inv H as ts Hts.
  apply symbol_texts_ok in Hts. apply join_empty_ok in H.
  destruct H as (texts & -> & ->).
  exists symbols, texts. rewrite Hv. simpl. split; [assumption|].
  split; [|reflexivity].
  clear -Hts. remember (map JStr texts) as ts eqn:E. revert texts E.
  induction Hts as [|symbol t symbols ts Ht _ IH]; intros texts E.
  - destruct texts; [constructor|discriminate].
  - destruct texts as [|s texts]; [discriminate|].
    injection E as -> ->. constructor; [assumption|apply IH; reflexivity].
Qed.

(** C7: the positions of an emitted page are the positions of its words
    in the order of the block, paragraph and word traversal, one entry
    per kept word and none merged or moved; the text of each entry is
    the concatenation of the word's symbol texts in their order. *)
Theorem positions_follow_traversal
  (i : nat) (text_response : json) (page : Page) :
  build_page i text_response = Ok page ->
  exists words,
    response_words text_response = Ok words /\
    positions page = flat_map expected_positions words /\
    Forall (fun word =>
              exists symbols texts,
                items_of word "symbols" = Ok symbols /\
                Forall2 (fun symbol s => getitem_key symbol "text" = Ok (JStr s))
                  symbols texts /\
                word_text word = Ok (join_texts texts) /\
                Forall (fun p => wp_text p = join_texts texts)
                  (expected_positions word))
           words.
Proof.
  intros H. apply build_page_positions in H. destruct H as (words & Hw & Hg).
  exists words. split; [assumption|].
  apply gather_word_positions in Hg. destruct Hg as [Hps Hall].
  split; [assumption|].
  eapply Forall_impl; [|exact Hall].
  intros word (c & t & Hc & Ht & He).
  destruct (word_text_ok _ _ Ht) as (symbols & texts & Hs & Hf & ->).
  exists symbols, texts. repeat split; try assumption.
  rewrite He. destruct (coords_in_unit c); constructor; [|constructor].
  destruct c as [[[x1 x2] y1] y2]. reflexivity.
Qed.

Lemma positions_follow_traversal_witness :
  build_page 0 sample_response = Ok sample_page /\
  exists words,
    response_words sample_response = Ok words /\
    positions sample_page = flat_map expected_positions words /\
    Forall (fun word =>
              exists symbols texts,
                items_of word "symbols" = Ok symbols /\
                Forall2 (fun symbol s => getitem_key symbol "text" = Ok (JStr s))
                  symbols texts /\
                word_text word = Ok (join_texts texts) /\
                Forall (fun p => wp_text p = join_texts texts)
                  (expected_positions word))
           words.
Proof.
  split; [reflexivity|].
  apply (positions_follow_traversal 0 sample_response sample_page).
  reflexivity.
Defined.

(** The two occurrences of the same word are both kept, around the word
    that follows the dropped one. *)
Example sample_positions_in_order :
  response_words sample_response = Ok [hello; outside; edge; hello] /\
  flat_map expected_positions [hello; outside; edge; hello] =
  [hello_position; edge_position; hello_position].
Proof. split; reflexivity. Qed.

(** ** The loops over response units and shards *)

Lemma responses_loop_inl (i : nat) (units : list json) (pages pages' : list Page)
  (w w' : World) :
  responses_loop i units pages w = inl (pages', w') ->
  w' = w /\
  exists new,
    pages' = pages ++ new /\
    Forall2 (fun iu page => build_page (fst iu) (snd iu) = Ok page)
      (map (pair i) units) new.
Proof.
  revert pages. induction units as [|u rest IH]; simpl; intros pages H.
  - injection H as <- <-. split; [reflexivity|].
    exists []. rewrite app_nil_r. split; [reflexivity|constructor].
  - destruct (build_page i u) as [page|e] eqn:E.
    + destruct (IH _ H) as (-> & new & -> & Hnew).
      split; [reflexivity|]. exists (page :: new).
      rewrite <- app_assoc. split; [reflexivity|].
      constructor; assumption.
    + discriminate.
Qed.

Lemma blob_step_inl (i : nat) (blob : Blob) (pages pages' : list Page) (w w' : World) :
  blob_step i blob pages w = inl (pages', w') ->
  w' = w /\
  exists new,
    pages' = pages ++ new /\
    Forall2 (fun iu page => build_page (fst iu) (snd iu) = Ok page)
      (map (pair i) (blob_units blob)) new.
Proof.
  unfold blob_step, blob_units, items_of.
  destruct (payload blob) as [response|]; [|discriminate].
  destruct (getitem_key response "responses") as [v|e]; simpl; [|discriminate].
  destruct (iter v) as [units|e]; [|discriminate].
  apply responses_loop_inl.
Qed.

Lemma blobs_loop_inl (i : nat) (blobs : list Blob) (pages pages' : list Page)
  (w w' : World) :
  blobs_loop i blobs pages w = inl (pages', w') ->
  w' = w /\
  exists new,
    pages' = pages ++ new /\
    Forall2 (fun iu page => build_page (fst iu) (snd iu) = Ok page)
      (indexed_units i blobs) new.
Proof.
  revert i pages. induction blobs as [|blob rest IH]; simpl; intros i pages H.
  - injection H as <- <-. split; [reflexivity|].
    exists []. rewrite app_nil_r. split; [reflexivity|constructor].
  - destruct (blob_step i blob pages w) as [[pages1 w1]|a] eqn:E; [|discriminate].
    apply blob_step_inl in E. destruct E as (-> & new1 & -> & H1).
    destruct (IH _ _ H) as (-> & new2 & -> & H2).
    split; [reflexivity|]. exists (new1 ++ new2).
    rewrite app_assoc. split; [reflexivity|].
    apply Forall2_app; assumption.
Qed.

(** A loop that stops early was stopped either by a shard that could
    not be read, or by the exception of some response unit. *)
Lemma responses_loop_inr (i : nat) (units : list json) (pages : list Page)
  (w : World) (a : abort) :
  responses_loop i units pages w = inr a ->
  exists u e, In u units /\ build_page i u = Raise e /\ a = on_exception e w.
Proof.
  revert pages. induction units as [|u rest IH]; simpl; intros pages H.
  - discriminate.
  - destruct (build_page i u) as [page|e] eqn:E.
    + destruct (IH _ H) as (u' & e & Hin & Hb & ->).
      exists u', e. auto.
    + injection H as <-. exists u, e. auto.
Qed.

Lemma blobs_loop_inr (i : nat) (blobs : list Blob) (pages : list Page)
  (w : World) (a : abort) :
  blobs_loop i blobs pages w = inr a ->
  (exists e, a = (w, Unhandled e)) \/
  (exists j u e,
      In (j, u) (indexed_units i blobs) /\
      build_page j u = Raise e /\ a = on_exception e w).
Proof.
  revert i pages. induction blobs as [|blob rest IH]; simpl; intros i pages H.
  - discriminate.
  - destruct (blob_step i blob pages w) as [[pages1 w1]|a1] eqn:E.
    + apply blob_step_inl in E. destruct E as (-> & _).
      destruct (IH _ _ H) as [?|(j & u & e & Hin & Hb & ->)]; [left; assumption|].
      right. exists j, u, e. rewrite in_app_iff. auto.
    + injection H as ->. unfold blob_step in E. unfold blob_units, items_of.
      destruct (payload blob) as [response|];
        [|left; exists ValueError; congruence].
      destruct (getitem_key response "responses") as [v|e]; simpl;
        [|left; exists e; congruence].
      destruct (iter v) as [units|e]; [|left; exists e; congruence].
      apply responses_loop_inr in E. destruct E as (u & e & Hin & Hb & ->).
      right. exists i, u, e. rewrite in_app_iff. split; [|auto].
      left. apply in_map. assumption.
Qed.

(** A run that returns has patched the document once, with one page per
    response unit, each built from its unit and the index of its shard. *)
Lemma set_doc_text_returned (document : Document) (blobs : list Blob) (w w' : World) :
  set_doc_text document blobs w = (w', Returned) ->
  exists pages,
    w' = client_patch (id document) pages w /\
    Forall2 (fun iu page => build_page (fst iu) (snd iu) = Ok page)
      (indexed_units 0 blobs) pages.
Proof.
  unfold set_doc_text.
  destruct (blobs_loop 0 blobs [] w) as [[pages w1]|[w1 t]] eqn:E.
  - intros [= <-]. apply blobs_loop_inl in E.
    destruct E as (-> & new & -> & Hnew).
    exists new. split; [reflexivity|assumption].
  - intros [= <- ->].
    apply blobs_loop_inr in E. destruct E as [(e & [= ])|(j & u & e & _ & _ & E)].
    destruct e; discriminate.
Qed.

Lemma indexed_units_length (i : nat) (blobs : list Blob) :
  List.length (indexed_units i blobs) = total_units blobs.
Proof.
  unfold total_units. revert i. induction blobs as [|blob rest IH]; intros i; simpl.
  - reflexivity.
  - rewrite length_app, length_map, IH. reflexivity.
Qed.

Lemma indexed_units_single (i : nat) (blobs : list Blob) :
  Forall (fun blob => List.length (blob_units blob) = 1) blobs ->
  map fst (indexed_units i blobs) = seq i (List.length blobs).
Proof.
  intros H. revert i. induction H as [|blob rest Hb _ IH]; intros i; simpl.
  - reflexivity.
  - destruct (blob_units blob) as [|u [|u' us]]; try discriminate.
    simpl. rewrite IH. reflexivity.
Qed.

Lemma page_numbers_of_units (ius : list (nat * json)) (pages : list Page) :
  Forall2 (fun iu page => build_page (fst iu) (snd iu) = Ok page) ius pages ->
  map page_number pages = map fst ius.
Proof.
  induction 1 as [|iu page ius pages H _ IH]; simpl.
  - reflexivity.
  - rewrite (build_page_number _ _ _ H), IH. reflexivity.
Qed.

(** ** Well-formed payloads are parsed to the end *)

Lemma gather_total {A B : Type} (valid : A -> bool) (f : A -> result (list B)) :
  (forall x, valid x = true -> exists l, f x = Ok l) ->
  forall xs, forallb valid xs = true -> exists ps, gather f xs = Ok ps.
Proof.
  intros Hf. induction xs as [|x rest IH]; simpl; intros H.
  - exists []. reflexivity.
  - apply andb_true_iff in H. destruct H as [Hx Hrest].
    destruct (Hf x Hx) as (l & ->). destruct (IH Hrest) as (r & ->).
    exists (l ++ r). reflexivity.
Qed.

Lemma valid_symbols_text (symbols : list json) :
  forallb valid_symbol symbols = true ->
  exists texts, symbol_texts symbols = Ok (map JStr texts).
Proof.
  induction symbols as [|symbol rest IH]; simpl; intros H.
  - exists []. reflexivity.
  - apply andb_true_iff in H. destruct H as [Hs Hrest].
    unfold valid_symbol in Hs.
    destruct (getitem_key symbol "text") as [[|?|?|?|t|?|?]|e]; try discriminate.
    destruct (IH Hrest) as (texts & ->). exists (t :: texts). reflexivity.
Qed.

Lemma join_empty_strings (texts : list string) :
  join_empty (map JStr texts) = Ok (join_texts texts).
Proof.
  induction texts as [|t rest IH]; [reflexivity|].
  change (join_empty (map JStr (t :: rest)))
    with (r <- join_empty (map JStr rest) ;; Ok (t ++ r)%string).
  rewrite IH, concat_empty_cons. reflexivity.
Qed.

Lemma valid_word_ok (word : json) :
  valid_word word = true -> exists l, word_positions word = Ok l.
Proof.
  unfold valid_word, word_positions, word_step, word_text, items_of.
  destruct (word_coords word) as [[[[x1 x2] y1] y2]|e]; [|discriminate].
  destruct (getitem_key word "symbols") as [v|e]; simpl; [|discriminate].
  destruct (iter v) as [symbols|e]; simpl; [|discriminate].
  rewrite !andb_true_iff. intros [[[[N1 N2] N3] N4] Hs].
  destruct (valid_symbols_text _ Hs) as (texts & ->). simpl.
  rewrite join_empty_strings. simpl.
  rewrite coords_in_range_numbers by assumption. simpl.
  destruct (in_unit x1 && in_unit x2 && in_unit y1 && in_unit y2);
    eexists; reflexivity.
Qed.

Lemma valid_paragraph_ok (paragraph : json) :
  valid_paragraph paragraph = true -> exists l, paragraph_positions paragraph = Ok l.
Proof.
  unfold valid_paragraph, paragraph_positions.
  destruct (paragraph_words paragraph) as [ws|e]; simpl; [|discriminate].
  apply gather_total, valid_word_ok.
Qed.

Lemma valid_block_ok (block : json) :
  valid_block block = true -> exists l, block_positions block = Ok l.
Proof.
  unfold valid_block, block_positions.
  destruct (items_of block "paragraphs") as [ps|e]; simpl; [|discriminate].
  apply gather_total, valid_paragraph_ok.
Qed.

Lemma valid_ann_page_ok (ann_page : json) :
  valid_ann_page ann_page = true -> exists l, ann_page_positions ann_page = Ok l.
Proof.
  unfold valid_ann_page, ann_page_positions.
  destruct (items_of ann_page "blocks") as [bs|e]; simpl; [|discriminate].
  apply gather_total, valid_block_ok.
Qed.

Lemma valid_unit_ok (i : nat) (text_response : json) :
  valid_unit text_response = true -> exists page, build_page i text_response = Ok page.
Proof.
  rewrite build_page_eq. unfold valid_unit, annotation_positions.
  destruct (call_get text_response "fullTextAnnotation" JNull) as [a|e];
    simpl; [|discriminate].
  destruct (truthy a); [|intros _; eexists; reflexivity].
  destruct (getitem_key a "text") as [t|e]; simpl; [|discriminate].
  destruct (items_of a "pages") as [aps|e]; simpl; [|discriminate].
  intros H. destruct (gather_total _ _ valid_ann_page_ok _ H) as (ps & ->).
  eexists; reflexivity.
Qed.

Lemma responses_loop_total (i : nat) (units : list json) (pages : list Page) (w : World) :
  forallb valid_unit units = true ->
  exists new, responses_loop i units pages w = inl (pages ++ new, w).
Proof.
  revert pages. induction units as [|u rest IH]; simpl; intros pages H.
  - exists []. rewrite app_nil_r. reflexivity.
  - apply andb_true_iff in H. destruct H as [Hu Hrest].
    destruct (valid_unit_ok i u Hu) as (page & ->).
    destruct (IH (pages ++ [page]) Hrest) as (new & ->).
    exists (page :: new). rewrite <- app_assoc. reflexivity.
Qed.

Lemma blobs_loop_total (i : nat) (blobs : list Blob) (pages : list Page) (w : World) :
  forallb valid_shard blobs = true ->
  exists new, blobs_loop i blobs pages w = inl (pages ++ new, w).
Proof.
  revert i pages. induction blobs as [|blob rest IH]; simpl; intros i pages H.
  - exists []. rewrite app_nil_r. reflexivity.
  - apply andb_true_iff in H. destruct H as [Hb Hrest].
    unfold valid_shard, items_of in Hb. unfold blob_step.
    destruct (payload blob) as [response|]; [|discriminate].
    destruct (getitem_key response "responses") as [v|e]; simpl in *; [|discriminate].
    destruct (iter v) as [units|e]; [|discriminate].
    destruct (responses_loop_total i units pages w Hb) as (new1 & ->).
    destruct (IH (S i) (pages ++ new1) Hrest) as (new2 & ->).
    exists (new1 ++ new2). rewrite app_assoc. reflexivity.
Qed.

Lemma set_doc_text_total (document : Document) (blobs : list Blob) (w : World) :
  forallb valid_shard blobs = true ->
  exists pages,
    set_doc_text document blobs w = (client_patch (id document) pages w, Returned).
Proof.
  intros H. unfold set_doc_text.
  destruct (blobs_loop_total 0 blobs [] w H) as (new & ->).
  exists new. reflexivity.
Qed.

(** ** Page numbers and page count *)

Lemma indexed_units_indices (i : nat) (blobs : list Blob) :
  map fst (indexed_units i blobs) = shard_indices i (unit_counts blobs).
Proof.
  revert i. induction blobs as [|blob rest IH]; intros i; simpl.
  - reflexivity.
  - rewrite map_app, IH. f_equal.
    induction (blob_units blob) as [|u us IHu]; simpl; [|rewrite IHu]; reflexivity.
Qed.

(** C2, as stated, fails: the two response units of the first shard of
    [batched_shards] both get page number 0, so the numbers of the three
    pages are 0, 0, 1 and not 0, 1, 2. *)
Lemma page_numbers_repeat_within_shard :
  exists pages,
    set_doc_text example_document batched_shards empty_world =
      (client_patch 7 pages empty_world, Returned) /\
    map page_number pages = [0; 0; 1] /\
    map page_number pages <> seq 0 (List.length pages).
Proof.
  eexists. split; [reflexivity|]. split; [reflexivity|]. discriminate.
Qed.

(** C2, amended: the page number of each emitted page is the index of
    its shard in the ordered shard sequence, whatever the payload says;
    so when every shard holds exactly one response unit the page
    numbers are exactly 0..N-1, also where pages have empty text. *)
Theorem page_number_is_shard_index
  (document : Document) (blobs : list Blob) (w w' : World) :
  set_doc_text document blobs w = (w', Returned) ->
  exists pages,
    w' = client_patch (id document) pages w /\
    map page_number pages = shard_indices 0 (unit_counts blobs) /\
    (Forall (fun blob => List.length (blob_units blob) = 1) blobs ->
     List.length pages = List.length blobs /\
     map page_number pages = seq 0 (List.length pages)).
Proof.
  intros H. apply set_doc_text_returned in H. destruct H as (pages & -> & Hp).
  exists pages. split; [reflexivity|].
  pose proof (page_numbers_of_units _ _ Hp) as Hn.
  split; [rewrite Hn; apply indexed_units_indices|].
  intros Hone. rewrite (indexed_units_single 0 blobs Hone) in Hn.
  assert (Hlen : List.length pages = List.length blobs).
  { apply (f_equal (@List.length _)) in Hn.
    rewrite length_map, length_seq in Hn. assumption. }
  split; [assumption|]. rewrite Hlen. assumption.
Qed.

Lemma page_number_is_shard_index_witness :
  set_doc_text example_document scenario_shards empty_world =
    (client_patch 7 scenario_pages empty_world, Returned) /\
  map page_number scenario_pages = shard_indices 0 [1; 1] /\
  List.length scenario_pages = List.length scenario_shards /\
  map page_number scenario_pages = seq 0 (List.length scenario_pages).
Proof.
  split; [reflexivity|].
  destruct (page_number_is_shard_index example_document scenario_shards
              empty_world (client_patch 7 scenario_pages empty_world) eq_refl)
    as (pages & Hw & Hidx & Hone).
  injection Hw as <-.
  split; [exact Hidx|].
  apply Hone. repeat constructor.
Defined.

(** C3: a well-formed shard sequence is parsed to the end, and the page
    list a run patches has one page per response unit of the shards,
    each built from its unit, with or without a full-text annotation. *)
Theorem one_page_per_response_unit
  (document : Document) (blobs : list Blob) (w : World) :
  (forallb valid_shard blobs = true ->
   exists pages,
     set_doc_text document blobs w =
       (client_patch (id document) pages w, Returned)) /\
  (forall w',
      set_doc_text document blobs w = (w', Returned) ->
      exists pages,
        w' = client_patch (id document) pages w /\
        List.length pages = total_units blobs /\
        Forall2 (fun iu page => build_page (fst iu) (snd iu) = Ok page)
          (indexed_units 0 blobs) pages).
Proof.
  split; [apply set_doc_text_total|].
  intros w' H. apply set_doc_text_returned in H. destruct H as (pages & -> & Hp).
  exists pages. split; [reflexivity|]. split; [|assumption].
  rewrite <- (indexed_units_length 0). symmetry.
  apply (Forall2_length Hp).
Qed.

Lemma one_page_per_response_unit_witness :
  forallb valid_shard batched_shards = true /\
  total_units batched_shards = 3 /\
  exists pages,
    client_patch 7 [sample_page; empty_page 0; empty_page 1] empty_world =
      client_patch (id example_document) pages empty_world /\
    List.length pages = total_units batched_shards /\
    Forall2 (fun iu page => build_page (fst iu) (snd iu) = Ok page)
      (indexed_units 0 batched_shards) pages.
Proof.
  split; [reflexivity|]. split; [reflexivity|].
  destruct (one_page_per_response_unit example_document batched_shards
              empty_world) as [Hvalid Hreturned].
  destruct (Hvalid eq_refl) as (pages & Hrun).
  apply Hreturned. reflexivity.
Defined.

(** ** Response units without annotation *)

(** C5, as stated, fails on the page number: the unit without
    annotation that follows another unit in the same shard is emitted as
    the second page and carries the number 0 of its shard, not the next
    page number 1. *)
Lemma empty_page_repeats_shard_index :
  exists pages,
    set_doc_text example_document
      [shard_of "p_1_" [sample_response; JObj []]] empty_world =
      (client_patch 7 pages empty_world, Returned) /\
    nth_error pages 1 = Some (empty_page 0) /\
    page_number (empty_page 0) <> 1.
Proof.
  eexists. split; [reflexivity|]. split; [reflexivity|]. discriminate.
Qed.

(** C5, amended: a response unit whose [fullTextAnnotation] is absent or
    falsy gives a page with the empty string as text and no positions,
    numbered with the index of its shard, and this page is appended to
    the pages rather than left out. *)
Theorem missing_annotation_gives_empty_page
  (i : nat) (text_response annotation : json) :
  call_get text_response "fullTextAnnotation" JNull = Ok annotation ->
  truthy annotation = false ->
  build_page i text_response = Ok (empty_page i) /\
  text (empty_page i) = JStr EmptyString /\
  positions (empty_page i) = [] /\
  page_number (empty_page i) = i /\
  forall rest pages w,
    responses_loop i (text_response :: rest) pages w =
    responses_loop i rest (pages ++ [empty_page i]) w.
Proof.
  intros Hget Hfalsy.
  assert (Hb : build_page i text_response = Ok (empty_page i)).
  { unfold build_page. rewrite Hget. simpl. rewrite Hfalsy. reflexivity. }
  repeat (split; [first [exact Hb|reflexivity]|]).
  intros rest pages w. simpl. rewrite Hb. reflexivity.
Qed.

Lemma missing_annotation_gives_empty_page_witness :
  build_page 1 (JObj []) = Ok (empty_page 1) /\
  build_page 1 (JObj [("fullTextAnnotation", JObj [])]) = Ok (empty_page 1).
Proof.
  split.
  - apply (missing_annotation_gives_empty_page 1 (JObj []) JNull);
      reflexivity.
  - apply (missing_annotation_gives_empty_page 1
             (JObj [("fullTextAnnotation", JObj [])]) (JObj []));
      reflexivity.
Defined.

(** ** Runs that stop early *)

(** C9: when a run ends on the fatal path of the two [except] clauses,
    some response unit raised a [KeyError] or a [ValueError] while its
    page was built, one message was set, the exit code is 1, and no
    [patch] request was sent: the pages assembled before are dropped
    and the document keeps the pages it had. *)
Theorem fatal_exit_leaves_document_unpatched
  (document : Document) (blobs : list Blob) (w w' : World) (code : Z) :
  set_doc_text document blobs w = (w', SysExit code) ->
  patches w' = patches w /\
  code = 1%Z /\
  (exists msg,
      messages w' = messages w ++ [msg] /\
      (msg = key_error_message \/ msg = value_error_message)) /\
  exists i text_response e,
    In (i, text_response) (indexed_units 0 blobs) /\
    build_page i text_response = Raise e /\
    ((exists k, e = KeyError k) \/ e = ValueError).
Proof.
  unfold set_doc_text.
  destruct (blobs_loop 0 blobs [] w) as [[pages w1]|a] eqn:E;
    [discriminate|].
  intros ->. apply blobs_loop_inr in E.
  destruct E as [(e & [= ])|(i & u & e & Hin & Hb & E)].
  destruct e as [k| | | |]; simpl in E; try discriminate;
    injection E as -> ->.
  - split; [reflexivity|]. split; [reflexivity|]. split.
    + exists key_error_message. split; [reflexivity|left; reflexivity].
    + exists i, u, (KeyError k). split; [assumption|].
      split; [assumption|]. left. exists k. reflexivity.
  - split; [reflexivity|]. split; [reflexivity|]. split.
    + exists value_error_message. split; [reflexivity|right; reflexivity].
    + exists i, u, ValueError. split; [assumption|].
      split; [assumption|]. right. reflexivity.
Qed.

Lemma fatal_exit_leaves_document_unpatched_witness :
  set_doc_text example_document broken_shards empty_world =
    (mkWorld [key_error_message] ["'text'"] [], SysExit 1) /\
  build_page 0 sample_response = Ok sample_page /\
  patches (mkWorld [key_error_message] ["'text'"] []) = patches empty_world.
Proof.
  split; [reflexivity|]. split; [reflexivity|].
  apply (fatal_exit_leaves_document_unpatched example_document broken_shards
           empty_world (mkWorld [key_error_message] ["'text'"] []) 1).
  reflexivity.
Defined.

(** C10: a word whose [normalizedVertices] list holds fewer than three
    vertices makes the vertex extraction raise [IndexError]; neither
    [except] clause catches it, so the run on an otherwise well-formed
    shard with such a word ends with the exception unhandled, no
    message set and nothing patched. *)
Theorem short_vertex_list_is_unhandled
  (vertices : list json) (symbols : list string) (t key : string)
  (document : Document) (w : World) :
  List.length vertices < 3 ->
  Forall (fun v => exists fields, v = JObj fields) vertices ->
  word_coords (sample_word symbols vertices) = Raise IndexError /\
  on_exception IndexError w = (w, Unhandled IndexError) /\
  set_doc_text document
    [shard_of key [sample_unit t [sample_word symbols vertices]]] w =
    (w, Unhandled IndexError).
Proof.
  intros Hlen Hobj.
  assert (Hc : word_coords (sample_word symbols vertices) = Raise IndexError).
  { destruct vertices as [|v0 [|v1 [|v2 rest]]]; simpl in Hlen; try lia.
    - reflexivity.
    - inversion Hobj as [|? ? [f0 ->] _]; subst.
      unfold word_coords, sample_word; simpl.
      destruct (dict_lookup "x" f0); reflexivity.
    - inversion Hobj as [|? ? [f0 ->] Hobj']; subst.
      inversion Hobj' as [|? ? [f1 ->] _]; subst.
      unfold word_coords, sample_word; simpl.
      destruct (dict_lookup "x" f0), (dict_lookup "x" f1),
        (dict_lookup "y" f0); reflexivity. }
  split; [exact Hc|]. split; [reflexivity|].
  remember (sample_word symbols vertices) as word eqn:Hword.
  assert (Hb : build_page 0 (sample_unit t [word]) = Raise IndexError).
  { rewrite build_page_eq. unfold sample_unit. simpl.
    unfold annotation_positions, items_of. simpl.
    unfold ann_page_positions, items_of. simpl.
    unfold block_positions, items_of. simpl.
    unfold paragraph_positions, paragraph_words, items_of. simpl.
    unfold word_positions, word_step. rewrite Hc. reflexivity. }
  unfold set_doc_text, shard_of, blobs_loop, blob_step. simpl.
  rewrite Hb. reflexivity.
Qed.

Lemma short_vertex_list_is_unhandled_witness :
  word_coords (sample_word ["H"; "i"] [vertex (1#10) (5#100); vertex (3#10) (5#100)]) =
    Raise IndexError /\
  on_exception IndexError empty_world = (empty_world, Unhandled IndexError) /\
  set_doc_text example_document
    [shard_of "p_1_"
       [sample_unit "Hi"
          [sample_word ["H"; "i"] [vertex (1#10) (5#100); vertex (3#10) (5#100)]]]]
    empty_world = (empty_world, Unhandled IndexError).
Proof.
  apply (short_vertex_list_is_unhandled
           [vertex (1#10) (5#100); vertex (3#10) (5#100)] ["H"; "i"] "Hi" "p_1_"
           example_document empty_world).
  - simpl. lia.
  - repeat constructor; eexists; reflexivity.
Defined.

(** ** A listing without shards *)

(** C8, as stated, fails in its last part: with nothing listed under the
    prefix the run returns as a run that found shards does, with the
    same messages (none) and the same way of ending, and it leaves
    exactly what a run over a shard without response units leaves. *)
Lemma zero_shards_end_like_success :
  list_blobs empty_bucket example_uri = Ok [] /\
  vision_method empty_bucket example_document example_uri empty_world =
    (client_patch 7 [] empty_world, Returned) /\
  run_report (vision_method empty_bucket example_document example_uri empty_world) =
  run_report (vision_method lex_bucket example_document example_uri empty_world) /\
  vision_method empty_bucket example_document example_uri empty_world =
  vision_method hollow_bucket example_document example_uri empty_world.
Proof. repeat split; reflexivity. Qed.

(** C8, amended: when the store lists nothing under the destination
    prefix, [list_blobs] returns the empty sequence and raises nothing,
    and the run produces zero pages: it patches the document with the
    empty page list, sets no message and returns as any other run. *)
Theorem zero_shards_patch_no_pages
  (bucket : Bucket) (document : Document) (uri prefix : string) (w : World) :
  listing_prefix uri = Ok prefix ->
  bucket_list_blobs bucket prefix = [] ->
  list_blobs bucket uri = Ok [] /\
  set_doc_text document [] w = (client_patch (id document) [] w, Returned) /\
  vision_method bucket document uri w =
    (client_patch (id document) [] w, Returned) /\
  run_report (vision_method bucket document uri w) = (messages w, Returned).
Proof.
  intros Hp Hl.
  assert (H : list_blobs bucket uri = Ok []).
  { unfold list_blobs. rewrite Hp. simpl. rewrite Hl. reflexivity. }
  split; [exact H|]. split; [reflexivity|].
  unfold vision_method. rewrite H. split; reflexivity.
Qed.

Lemma zero_shards_patch_no_pages_witness :
  list_blobs empty_bucket example_uri = Ok [] /\
  set_doc_text example_document [] empty_world =
    (client_patch (id example_document) [] empty_world, Returned) /\
  vision_method empty_bucket example_document example_uri empty_world =
    (client_patch (id example_document) [] empty_world, Returned) /\
  run_report (vision_method empty_bucket example_document example_uri empty_world) =
    (messages empty_world, Returned).
Proof.
  apply (zero_shards_patch_no_pages empty_bucket example_document example_uri
           "out/json_output/report.pdf_" empty_world);
    reflexivity.
Defined.

(** ** Strings: [split], [join] and occurrences *)

Lemma string_app_assoc (a b c : string) :
  ((a ++ b) ++ c)%string = (a ++ b ++ c)%string.
Proof. induction a as [|x a IH]; simpl; [|rewrite IH]; reflexivity. Qed.

Lemma string_app_length (a b : string) :
  String.length (a ++ b) = String.length a + String.length b.
Proof. induction a as [|x a IH]; simpl; [|rewrite IH]; reflexivity. Qed.

Lemma prefix_empty (s : string) : String.prefix EmptyString s = true.
Proof. destruct s; reflexivity. Qed.

Lemma prefix_app_refl (p r : string) : String.prefix p (p ++ r) = true.
Proof.
  induction p as [|a p IH]; simpl; [apply prefix_empty|].
  destruct (ascii_dec a a); [assumption|contradiction].
Qed.

Lemma prefix_split (p s : string) :
  String.prefix p s = true -> exists r, s = (p ++ r)%string.
Proof.
  revert s. induction p as [|a p IH]; intros s H.
  - exists s. reflexivity.
  - destruct s as [|b s]; simpl in H; [discriminate|].
    destruct (ascii_dec a b) as [<-|]; [|discriminate].
    destruct (IH _ H) as (r & ->). exists r. reflexivity.
Qed.

Lemma prefix_app_long (p y z : string) :
  String.length p <= String.length y ->
  String.prefix p (y ++ z) = String.prefix p y.
Proof.
  revert y. induction p as [|a p IH]; intros y H.
  - rewrite !prefix_empty. reflexivity.
  - destruct y as [|b y]; simpl in *; [lia|].
    destruct (ascii_dec a b); [apply IH; lia|reflexivity].
Qed.

Lemma contains_cons (sep : string) (c : ascii) (s : string) :
  contains sep (String c s) = String.prefix sep (String c s) || contains sep s.
Proof. reflexivity. Qed.

Lemma split_from_cons (sep : string) (c : ascii) (s : string) :
  split_from sep (String c s) 0 =
  if String.prefix sep (String c s)
  then EmptyString :: split_from sep s (String.length sep - 1)
  else match split_from sep s 0 with
       | piece :: pieces => String c piece :: pieces
       | [] => [String c EmptyString]
       end.
Proof. reflexivity. Qed.

Lemma contains_app_l (sep x y : string) :
  contains sep (x ++ y) = false -> contains sep x = false.
Proof.
  induction x as [|c x IH].
  - intros H. destruct sep; [|reflexivity].
    destruct y; simpl in H; discriminate.
  - change (String c x ++ y)%string with (String c (x ++ y)).
    rewrite !contains_cons. intros H.
    apply orb_false_iff in H. destruct H as [Hp Hc].
    rewrite (IH Hc), orb_false_r.
    destruct (String.prefix sep (String c x)) eqn:E; [|reflexivity].
    apply prefix_split in E. destruct E as (r & E).
    change (String c (x ++ y)) with (String c x ++ y)%string in Hp.
    rewrite E, string_app_assoc, prefix_app_refl in Hp. discriminate.
Qed.

Lemma split_from_nonempty (sep s : string) (k : nat) : split_from sep s k <> [].
Proof.
  revert k. induction s as [|c s IH]; intros k; [discriminate|].
  destruct k; [|apply IH].
  rewrite split_from_cons.
  destruct (String.prefix sep (String c s)); [discriminate|].
  destruct (split_from sep s 0); discriminate.
Qed.

(** Passing over the rest of a separator. *)
Lemma split_from_skip (sep x rest : string) :
  split_from sep (x ++ rest) (String.length x) = split_from sep rest 0.
Proof. induction x as [|c x IH]; simpl; [reflexivity|apply IH]. Qed.

Lemma concat_cons_char (sep : string) (c : ascii) (piece : string)
  (pieces : list string) :
  String.concat sep (String c piece :: pieces) =
  String c (String.concat sep (piece :: pieces)).
Proof. destruct pieces; reflexivity. Qed.

(** [sep.join(s.split(sep))] is [s]. *)
Lemma join_split_from (sep : string) :
  sep <> EmptyString ->
  forall s x rest,
    s = (x ++ rest)%string ->
    String.concat sep (split_from sep s (String.length x)) = rest.
Proof.
  intros Hsep. induction s as [|c s IH]; intros x rest E.
  - destruct x; [|discriminate]. simpl in E. subst rest. reflexivity.
  - destruct x as [|c' x].
    + simpl in E. subst rest. simpl String.length. rewrite split_from_cons.
      destruct (String.prefix sep (String c s)) eqn:Ep.
      * apply prefix_split in Ep. destruct Ep as (r & Ep).
        destruct sep as [|a sep']; [contradiction|].
        injection Ep as <- ->.
        replace (String.length (String c sep') - 1) with (String.length sep')
          by (simpl; lia).
        pose proof (split_from_nonempty (String c sep') (sep' ++ r)
                      (String.length sep')) as Hne.
        pose proof (IH sep' r eq_refl) as Hj.
        destruct (split_from (String c sep') (sep' ++ r) (String.length sep'))
          as [|piece pieces]; [contradiction|].
        change (String.concat (String c sep') (EmptyString :: piece :: pieces))
          with (String c sep' ++ String.concat (String c sep') (piece :: pieces))%string.
        rewrite Hj. reflexivity.
      * pose proof (split_from_nonempty sep s 0) as Hne.
        pose proof (IH EmptyString s eq_refl) as Hj. simpl in Hj.
        destruct (split_from sep s 0) as [|piece pieces]; [contradiction|].
        rewrite concat_cons_char, Hj. reflexivity.
    + simpl in E. injection E as <- E.
      change (split_from sep (String c s) (String.length (String c x)))
        with (split_from sep s (String.length x)).
      apply IH. exact E.
Qed.

Lemma join_split (s sep : string) :
  sep <> EmptyString -> String.concat sep (split s sep) = s.
Proof.
  intros H. exact (join_split_from sep H s EmptyString s eq_refl).
Qed.

(** Without an occurrence of the separator there is one piece. *)
Lemma split_no_occurrence (sep s : string) :
  contains sep s = false -> split_from sep s 0 = [s].
Proof.
  induction s as [|c s IH]; intros H; [reflexivity|].
  rewrite contains_cons in H.
  apply orb_false_iff in H. destruct H as [Hp Hc].
  rewrite split_from_cons, Hp, (IH Hc). reflexivity.
Qed.

Lemma split_occurrence (sep s : string) :
  sep <> EmptyString -> contains sep s = true ->
  2 <= List.length (split_from sep s 0).
Proof.
  intros Hsep. induction s as [|c s IH]; intros H.
  - destruct sep; [contradiction|discriminate].
  - rewrite contains_cons in H. rewrite split_from_cons.
    destruct (String.prefix sep (String c s)) eqn:Ep.
    + pose proof (split_from_nonempty sep s (String.length sep - 1)) as Hne.
      destruct (split_from sep s (String.length sep - 1)); [contradiction|].
      simpl. lia.
    + simpl in H. specialize (IH H).
      destruct (split_from sep s 0) as [|piece pieces]; simpl in *; lia.
Qed.

(** The first piece ends where the separator first occurs; the
    separator is given by its last character [l] and what precedes it. *)
Lemma split_first (i : string) (l : ascii) (a rest : string) :
  contains (i ++ String l EmptyString) (a ++ i) = false ->
  split_from (i ++ String l EmptyString) (a ++ (i ++ String l EmptyString) ++ rest) 0 =
  a :: split_from (i ++ String l EmptyString) rest 0.
Proof.
  set (sep := (i ++ String l EmptyString)%string).
  assert (Hlen : String.length sep = S (String.length i)).
  { unfold sep. rewrite string_app_length. simpl. lia. }
  induction a as [|c a IH]; intros H.
  - change (EmptyString ++ sep ++ rest)%string with (sep ++ rest)%string.
    pose proof (prefix_app_refl sep rest) as Hp.
    pose proof (split_from_skip sep) as Hskip.
    destruct sep as [|c0 sep0] eqn:Es; [discriminate|].
    change (String c0 sep0 ++ rest)%string with (String c0 (sep0 ++ rest)) in *.
    rewrite split_from_cons, Hp.
    replace (String.length (String c0 sep0) - 1) with (String.length sep0)
      by (simpl; lia).
    rewrite Hskip. reflexivity.
  - change (String c a ++ i)%string with (String c (a ++ i)) in H.
    rewrite contains_cons in H.
    apply orb_false_iff in H. destruct H as [Hp Hc].
    change (String c a ++ sep ++ rest)%string with (String c (a ++ sep ++ rest)).
    rewrite split_from_cons.
    assert (Hp' : String.prefix sep (String c (a ++ sep ++ rest)) = false).
    { rewrite <- Hp.
      change (String c (a ++ sep ++ rest)) with (String c a ++ sep ++ rest)%string.
      change (String c (a ++ i)) with (String c a ++ i)%string.
      unfold sep at 2.
      rewrite (string_app_assoc i), <- (string_app_assoc (String c a) i).
      apply prefix_app_long.
      rewrite Hlen, string_app_length. simpl. lia. }
    rewrite Hp', (IH Hc). reflexivity.
Qed.

Lemma split_first_slash (a rest : string) :
  contains "/" a = false ->
  split (a ++ "/" ++ rest) "/" = a :: split rest "/".
Proof.
  intros H. unfold split.
  apply (split_first EmptyString "/"%char a rest).
  simpl append. rewrite append_empty_r. exact H.
Qed.

Lemma split_first_slashes (a rest : string) :
  contains "//" (a ++ "/") = false ->
  split (a ++ "//" ++ rest) "//" = a :: split rest "//".
Proof.
  intros H. unfold split.
  exact (split_first "/" "/"%char a rest H).
Qed.

Lemma prefix_cons (a b : ascii) (p s : string) :
  String.prefix (String a p) (String b s) =
  if ascii_dec a b then String.prefix p s else false.
Proof. reflexivity. Qed.

Lemma contains_slash_slashes (s : string) :
  contains "/" s = false -> contains "//" s = false.
Proof.
  induction s as [|c s IH]; [reflexivity|].
  rewrite !contains_cons. intros H.
  apply orb_false_iff in H. destruct H as [Hp Hc].
  rewrite (IH Hc), orb_false_r.
  rewrite prefix_cons in *. destruct (ascii_dec "/" c); [|reflexivity].
  rewrite prefix_empty in Hp. discriminate.
Qed.

Lemma no_double_slash_join (b p : string) :
  contains "/" b = false ->
  String.prefix "/" p = false ->
  contains "//" p = false ->
  contains "//" (b ++ "/" ++ p) = false.
Proof.
  intros Hb Hp Hc. induction b as [|c b IH].
  - change (EmptyString ++ "/" ++ p)%string with (String "/" p).
    rewrite contains_cons, Hc, orb_false_r, prefix_cons.
    destruct (ascii_dec "/" "/"); [exact Hp|reflexivity].
  - rewrite contains_cons in Hb.
    apply orb_false_iff in Hb. destruct Hb as [Hb1 Hb2].
    change (String c b ++ "/" ++ p)%string with (String c (b ++ "/" ++ p)).
    rewrite contains_cons, (IH Hb2), orb_false_r.
    rewrite prefix_cons in *. destruct (ascii_dec "/" c); [|reflexivity].
    rewrite prefix_empty in Hb1. discriminate.
Qed.

(** ** The listing prefix *)

Lemma listing_prefix_path (scheme bucket path : string) :
  contains "//" (scheme ++ "/") = false ->
  contains "/" bucket = false ->
  String.prefix "/" path = false ->
  contains "//" path = false ->
  listing_prefix (scheme ++ "//" ++ bucket ++ "/" ++ path) = Ok path.
Proof.
  intros Hs Hb Hp Hc.
  assert (H1 : split (scheme ++ "//" ++ bucket ++ "/" ++ path) "//" =
               [scheme; (bucket ++ "/" ++ path)%string]).
  { rewrite (split_first_slashes scheme _ Hs). unfold split.
    rewrite (split_no_occurrence "//" _ (no_double_slash_join _ _ Hb Hp Hc)).
    reflexivity. }
  unfold listing_prefix. rewrite H1. cbn [nth_error].
  rewrite (split_first_slash bucket path Hb). cbn [tl].
  rewrite join_split by discriminate. reflexivity.
Qed.

(** X1: for a URI made of a scheme, a bucket and a path below it, the
    listing prefix is that path: splitting at the slashes and joining
    the pieces again gives the path back. *)
Theorem listing_prefix_of_bucket_path (scheme bucket path : string) :
  contains "//" (scheme ++ "/") = false ->
  contains "/" bucket = false ->
  String.prefix "/" path = false ->
  contains "//" path = false ->
  listing_prefix (scheme ++ "//" ++ bucket ++ "/" ++ path) = Ok path.
Proof. exact (listing_prefix_path scheme bucket path). Qed.

Lemma listing_prefix_of_bucket_path_witness :
  listing_prefix "gs://documentcloud_cloudvision_ocr/out/json_output/report.pdf_" =
  Ok "out/json_output/report.pdf_".
Proof.
  apply (listing_prefix_of_bucket_path "gs:" "documentcloud_cloudvision_ocr"
           "out/json_output/report.pdf_"); reflexivity.
Defined.

(** X2: [list_blobs] raises [IndexError] exactly for a URI without a
    double slash; [vision_method] then ends with the exception
    unhandled, before anything is listed or patched. *)
Theorem list_blobs_index_error
  (bucket : Bucket) (document : Document) (uri : string) (w : World) :
  (contains "//" uri = false <-> list_blobs bucket uri = Raise IndexError) /\
  (contains "//" uri = false ->
   vision_method bucket document uri w = (w, Unhandled IndexError)).
Proof.
  assert (Hno : contains "//" uri = false -> list_blobs bucket uri = Raise IndexError).
  { intros H. unfold list_blobs, listing_prefix, split.
    rewrite (split_no_occurrence "//" uri H). reflexivity. }
  split; [split; [exact Hno|]|].
  - intros H. destruct (contains "//" uri) eqn:E; [|reflexivity].
    exfalso. unfold list_blobs, listing_prefix, split in H.
    pose proof (split_occurrence "//" uri ltac:(discriminate) E) as Hlen.
    destruct (split_from "//" uri 0) as [|p0 [|p1 ps]]; simpl in Hlen; try lia.
    simpl in H. discriminate.
  - intros H. unfold vision_method. rewrite (Hno H). reflexivity.
Qed.

Lemma list_blobs_index_error_witness :
  list_blobs lex_bucket "out/json_output/report.pdf_" = Raise IndexError /\
  vision_method lex_bucket example_document "out/json_output/report.pdf_" empty_world =
    (empty_world, Unhandled IndexError).
Proof.
  destruct (list_blobs_index_error lex_bucket example_document
              "out/json_output/report.pdf_" empty_world) as [[H1 _] H2].
  split; [apply H1|apply H2]; reflexivity.
Defined.

(** X3: a URI that names the bucket only gives the empty prefix, so
    that [list_blobs] lists the whole bucket. *)
Theorem listing_prefix_bucket_only (bucket : Bucket) (scheme name : string) :
  contains "//" (scheme ++ "/") = false ->
  contains "/" name = false ->
  listing_prefix (scheme ++ "//" ++ name) = Ok EmptyString /\
  list_blobs bucket (scheme ++ "//" ++ name) =
    Ok (sorted blob_key (bucket_list_blobs bucket EmptyString)).
Proof.
  intros Hs Hn.
  assert (H : listing_prefix (scheme ++ "//" ++ name) = Ok EmptyString).
  { unfold listing_prefix. rewrite (split_first_slashes scheme _ Hs).
    unfold split.
    rewrite (split_no_occurrence "//" _ (contains_slash_slashes _ Hn)).
    cbn [nth_error]. rewrite (split_no_occurrence "/" _ Hn). reflexivity. }
  split; [exact H|]. unfold list_blobs. rewrite H. reflexivity.
Qed.

Lemma listing_prefix_bucket_only_witness :
  listing_prefix "gs://documentcloud_cloudvision_ocr" = Ok EmptyString /\
  list_blobs unordered_bucket "gs://documentcloud_cloudvision_ocr" =
    Ok (sorted blob_key (bucket_list_blobs unordered_bucket EmptyString)).
Proof.
  apply (listing_prefix_bucket_only unordered_bucket "gs:"
           "documentcloud_cloudvision_ocr"); reflexivity.
Defined.

(** X4: only what lies between the first and the second double slash
    of the URI is read: a second double slash cuts the prefix short. *)
Theorem listing_prefix_stops_at_double_slash (scheme a b : string) :
  contains "//" (scheme ++ "/") = false ->
  contains "//" (a ++ "/") = false ->
  listing_prefix (scheme ++ "//" ++ a ++ "//" ++ b) =
  listing_prefix (scheme ++ "//" ++ a).
Proof.
  intros Hs Ha. unfold listing_prefix.
  rewrite !(split_first_slashes scheme _ Hs).
  rewrite (split_first_slashes a b Ha).
  replace (split a "//") with [a]
    by (symmetry; apply split_no_occurrence, (contains_app_l _ _ _ Ha)).
  reflexivity.
Qed.

Lemma listing_prefix_stops_at_double_slash_witness :
  listing_prefix "gs://documentcloud_cloudvision_ocr/out/json_output/a//b.pdf_" =
  listing_prefix "gs://documentcloud_cloudvision_ocr/out/json_output/a".
Proof.
  apply (listing_prefix_stops_at_double_slash "gs:"
           "documentcloud_cloudvision_ocr/out/json_output/a" "b.pdf_");
    reflexivity.
Defined.

(** X5: a listing that is already in the order of the key lengths comes
    back as listed. *)
Theorem list_blobs_keeps_sorted_listing
  (bucket : Bucket) (uri prefix : string) :
  listing_prefix uri = Ok prefix ->
  StronglySorted (fun a b => blob_key a <= blob_key b)
    (bucket_list_blobs bucket prefix) ->
  list_blobs bucket uri = Ok (bucket_list_blobs bucket prefix).
Proof.
  intros Hp Hs. unfold list_blobs. rewrite Hp. simpl. f_equal.
  apply (stable_sort_unique blob_key).
  - apply (sorted_by_key blob_key).
  - exact Hs.
  - intros n. apply sorted_stable.
Qed.

Lemma list_blobs_keeps_sorted_listing_witness :
  list_blobs (mkBucket (fun _ => map shard ["p_1_"; "p_2_"; "p_10_"])) example_uri =
  Ok (map shard ["p_1_"; "p_2_"; "p_10_"]).
Proof.
  apply (list_blobs_keeps_sorted_listing
           (mkBucket (fun _ => map shard ["p_1_"; "p_2_"; "p_10_"]))
           example_uri "out/json_output/report.pdf_").
  - reflexivity.
  - simpl. unfold blob_key. simpl. repeat constructor.
Defined.

(** ** Paths *)

Lemma prefix_slash_cons (c : ascii) (s : string) :
  String.prefix "/" (String c s) = Ascii.eqb c "/".
Proof.
  rewrite prefix_cons, prefix_empty.
  destruct (ascii_dec "/" c) as [<-|H]; [reflexivity|].
  symmetry. apply Ascii.eqb_neq. congruence.
Qed.

Lemma contains_slash_app (x y : string) :
  contains "/" (x ++ y) = contains "/" x || contains "/" y.
Proof.
  induction x as [|c x IH]; [reflexivity|].
  change (String c x ++ y)%string with (String c (x ++ y)).
  rewrite !contains_cons, !prefix_slash_cons, IH, orb_assoc. reflexivity.
Qed.

Lemma basename_from_no_slash (p acc : string) :
  contains "/" acc = false -> contains "/" (basename_from p acc) = false.
Proof.
  revert acc. induction p as [|c p IH]; intros acc H; simpl; [exact H|].
  destruct (Ascii.eqb c "/") eqn:E; apply IH; [reflexivity|].
  rewrite contains_slash_app, H, contains_cons, prefix_slash_cons, E.
  reflexivity.
Qed.

Lemma remote_subdir_no_slash (input_dir : string) :
  contains "/" (remote_subdir input_dir) = false.
Proof. apply basename_from_no_slash. reflexivity. Qed.

Lemma no_slash_prefix (s : string) :
  contains "/" s = false -> String.prefix "/" s = false.
Proof.
  destruct s as [|c s]; [reflexivity|].
  rewrite contains_cons. intros H. apply orb_false_iff in H. apply H.
Qed.

Lemma ends_with_slash_cons (c : ascii) (s : string) :
  s <> EmptyString -> ends_with_slash (String c s) = ends_with_slash s.
Proof. destruct s; [contradiction|reflexivity]. Qed.

Lemma ends_with_slash_app (x y : string) :
  y <> EmptyString -> ends_with_slash (x ++ y) = ends_with_slash y.
Proof.
  intros Hy. induction x as [|c x IH]; [reflexivity|].
  change (String c x ++ y)%string with (String c (x ++ y)).
  rewrite ends_with_slash_cons; [exact IH|].
  destruct x; [exact Hy|discriminate].
Qed.

Lemma no_slash_end (s : string) :
  contains "/" s = false -> ends_with_slash s = false.
Proof.
  induction s as [|c s IH]; [reflexivity|].
  rewrite contains_cons, prefix_slash_cons. intros H.
  apply orb_false_iff in H. destruct H as [Hc Hs].
  destruct s as [|c' s]; [exact Hc|].
  rewrite ends_with_slash_cons by discriminate. apply IH. exact Hs.
Qed.

(** The three cases of [os.path.join] on one component. *)
Lemma path_join2_absolute (path b : string) :
  String.prefix "/" b = true -> path_join2 path b = b.
Proof. unfold path_join2. intros ->. reflexivity. Qed.

Lemma path_join2_plain (path b : string) :
  String.prefix "/" b = false -> path <> EmptyString ->
  ends_with_slash path = false ->
  path_join2 path b = (path ++ "/" ++ b)%string.
Proof.
  unfold path_join2. intros -> Hne ->.
  apply String.eqb_neq in Hne. rewrite Hne. reflexivity.
Qed.

Lemma path_join2_empty (b : string) : path_join2 EmptyString b = b.
Proof. unfold path_join2. destruct (String.prefix "/" b); reflexivity. Qed.

Lemma prefix_slash_app (f rest : string) :
  rest <> EmptyString ->
  String.prefix "/" f = false -> String.prefix "/" rest = false ->
  String.prefix "/" (f ++ rest) = false.
Proof.
  intros Hne Hf Hr. destruct f as [|c f]; [exact Hr|].
  change (String c f ++ rest)%string with (String c (f ++ rest)).
  rewrite prefix_slash_cons in *. exact Hf.
Qed.

Lemma no_double_slash_underscore (f : string) :
  contains "//" f = false -> contains "//" (f ++ "_") = false.
Proof.
  induction f as [|c f IH]; [reflexivity|].
  change (String c f ++ "_")%string with (String c (f ++ "_")).
  rewrite !contains_cons. intros H.
  apply orb_false_iff in H. destruct H as [Hp Hc].
  rewrite (IH Hc), orb_false_r.
  rewrite prefix_cons in *. destruct (ascii_dec "/" c); [|reflexivity].
  destruct f as [|c' f]; [reflexivity|].
  change (String c' f ++ "_")%string with (String c' (f ++ "_")).
  rewrite prefix_slash_cons in *. exact Hp.
Qed.

(** The destination URI is the bucket URI followed by the destination
    path relative to the bucket. *)
Lemma gcs_destination_uri_eq (input_dir filename : string) :
  String.prefix "/" (substring 0 60 filename) = false ->
  gcs_destination_uri input_dir filename =
  ("gs://documentcloud_cloudvision_ocr/" ++
   path_join (remote_subdir input_dir)
     ["json_output"; (substring 0 60 filename ++ "_")%string])%string.
Proof.
  intros Hf. unfold gcs_destination_uri, path_join. cbn [fold_left].
  pose proof (remote_subdir_no_slash input_dir) as Hrs.
  set (f := (substring 0 60 filename ++ "_")%string).
  assert (Hpf : String.prefix "/" f = false).
  { apply prefix_slash_app; [discriminate|exact Hf|reflexivity]. }
  change (path_join2 "gs://" bucket_name) with "gs://documentcloud_cloudvision_ocr".
  destruct (remote_subdir input_dir) as [|c rs] eqn:E.
  - change (path_join2 "gs://documentcloud_cloudvision_ocr" EmptyString)
      with "gs://documentcloud_cloudvision_ocr/".
    change (path_join2 "gs://documentcloud_cloudvision_ocr/" "json_output")
      with "gs://documentcloud_cloudvision_ocr/json_output".
    change (path_join2 EmptyString "json_output") with "json_output".
    rewrite !path_join2_plain by (try exact Hpf; try discriminate; reflexivity).
    reflexivity.
  - rewrite (path_join2_plain "gs://documentcloud_cloudvision_ocr" (String c rs))
      by (try discriminate; try reflexivity; apply no_slash_prefix, Hrs).
    rewrite (path_join2_plain (String c rs) "json_output")
      by (try discriminate; try reflexivity; apply no_slash_end, Hrs).
    rewrite (path_join2_plain _ "json_output").
    + rewrite !path_join2_plain;
        try exact Hpf; try discriminate;
        try (rewrite ends_with_slash_app by discriminate; reflexivity).
      rewrite !string_app_assoc. reflexivity.
    + reflexivity.
    + discriminate.
    + rewrite !ends_with_slash_app by (simpl; discriminate).
      apply no_slash_end, Hrs.
Qed.

Lemma relative_destination_clean (rs f : string) :
  contains "/" rs = false ->
  String.prefix "/" f = false ->
  contains "//" f = false ->
  String.prefix "/" (path_join rs ["json_output"; (f ++ "_")%string]) = false /\
  contains "//" (path_join rs ["json_output"; (f ++ "_")%string]) = false.
Proof.
  intros Hrs Hf Hc. unfold path_join. cbn [fold_left].
  assert (Hpf : String.prefix "/" (f ++ "_") = false).
  { apply prefix_slash_app; [discriminate|exact Hf|reflexivity]. }
  assert (Htail : contains "//" ("json_output" ++ "/" ++ f ++ "_") = false).
  { apply no_double_slash_join;
      [reflexivity|exact Hpf|apply no_double_slash_underscore, Hc]. }
  destruct rs as [|c rs].
  - change (path_join2 EmptyString "json_output") with "json_output".
    rewrite path_join2_plain by (try exact Hpf; try discriminate; reflexivity).
    split; [reflexivity|exact Htail].
  - rewrite (path_join2_plain (String c rs) "json_output")
      by (try discriminate; try reflexivity; apply no_slash_end, Hrs).
    rewrite path_join2_plain;
      try exact Hpf; try discriminate;
      try (rewrite ends_with_slash_app by discriminate; reflexivity).
    rewrite string_app_assoc. split.
    + cbn [append]. rewrite prefix_slash_cons.
      rewrite contains_cons, prefix_slash_cons in Hrs.
      apply orb_false_iff in Hrs. apply Hrs.
    + exact (no_double_slash_join (String c rs)
               ("json_output" ++ "/" ++ f ++ "_") Hrs eq_refl Htail).
Qed.

(** X6: the prefix [list_blobs] derives from the URI that [json_ocr]
    returns is the destination path below the bucket, whenever the
    first sixty characters of the file name neither start with a slash
    nor hold a double slash. *)
Theorem listing_prefix_of_destination (input_dir filename : string) :
  String.prefix "/" (substring 0 60 filename) = false ->
  contains "//" (substring 0 60 filename) = false ->
  listing_prefix (gcs_destination_uri input_dir filename) =
  Ok (path_join (remote_subdir input_dir)
        ["json_output"; (substring 0 60 filename ++ "_")%string]).
Proof.
  intros Hf Hc. rewrite (gcs_destination_uri_eq _ _ Hf).
  destruct (relative_destination_clean _ _ (remote_subdir_no_slash input_dir) Hf Hc)
    as [Hp Hd].
  exact (listing_prefix_path "gs:" "documentcloud_cloudvision_ocr" _
           eq_refl eq_refl Hp Hd).
Qed.

Lemma listing_prefix_of_destination_witness :
  listing_prefix (gcs_destination_uri "out" "report.pdf") =
  Ok "out/json_output/report.pdf_".
Proof.
  apply (listing_prefix_of_destination "out" "report.pdf"); reflexivity.
Defined.

(** ** [json_ocr] *)

Lemma rel_remote_path_relative (input_dir filename : string) :
  String.prefix "/" filename = false ->
  String.prefix "/" (rel_remote_path input_dir filename) = false.
Proof.
  intros Hf. unfold rel_remote_path, path_join. cbn [fold_left].
  pose proof (remote_subdir_no_slash input_dir) as Hrs.
  destruct (remote_subdir input_dir) as [|c rs].
  - rewrite path_join2_empty. exact Hf.
  - rewrite path_join2_plain
      by (try exact Hf; try discriminate; apply no_slash_end, Hrs).
    cbn [append]. rewrite prefix_slash_cons.
    rewrite contains_cons, prefix_slash_cons in Hrs.
    apply orb_false_iff in Hrs. apply Hrs.
Qed.

Lemma gcs_source_uri_eq (input_dir filename : string) :
  String.prefix "/" filename = false ->
  gcs_source_uri input_dir filename =
  ("gs://documentcloud_cloudvision_ocr/" ++ rel_remote_path input_dir filename)%string.
Proof.
  intros Hf. unfold gcs_source_uri, path_join. cbn [fold_left].
  change (path_join2 "gs://" bucket_name) with "gs://documentcloud_cloudvision_ocr".
  rewrite path_join2_plain;
    [reflexivity|apply rel_remote_path_relative, Hf|discriminate|reflexivity].
Qed.

(** X7: when [json_ocr] returns a URI, the upload and the job both
    succeeded, one blob was uploaded and one request sent, the request
    reads the uploaded blob of the bucket and writes to the URI
    returned, for a file name that does not start with a slash. *)
Theorem json_ocr_requests_uploaded_blob
  (services : Services) (input_dir filename : string) (c c' : Cloud) (uri : string) :
  String.prefix "/" filename = false ->
  json_ocr services input_dir filename c = (c', Some uri) ->
  exists blob_name file request,
    uploads c' = uploads c ++ [(blob_name, file)] /\
    requests c' = requests c ++ [request] /\
    upload_from_filename services file = true /\
    operation_result services request 360 = true /\
    request_source request = ("gs://" ++ bucket_name ++ "/" ++ blob_name)%string /\
    request_destination request = uri /\
    uri = gcs_destination_uri input_dir filename.
Proof.
  intros Hf. unfold json_ocr.
  destruct (upload_from_filename services (local_path input_dir filename)) eqn:Eu;
    [|discriminate].
  match goal with
  | |- context [operation_result services ?r 360] =>
      destruct (operation_result services r 360) eqn:Eo; [|discriminate]
  end.
  intros [= <- <-].
  eexists _, _, _. cbn [uploads requests].
  repeat split; try eassumption; try reflexivity.
  cbn [request_source]. rewrite (gcs_source_uri_eq _ _ Hf). reflexivity.
Qed.

Lemma json_ocr_requests_uploaded_blob_witness :
  exists blob_name file request,
    uploads (mkCloud [("out/report.pdf", "out/report.pdf")]
               [mkAnnotateRequest "DOCUMENT_TEXT_DETECTION"
                  "gs://documentcloud_cloudvision_ocr/out/report.pdf"
                  "application/pdf" example_uri 1]) =
      uploads (mkCloud [] []) ++ [(blob_name, file)] /\
    requests (mkCloud [("out/report.pdf", "out/report.pdf")]
                [mkAnnotateRequest "DOCUMENT_TEXT_DETECTION"
                   "gs://documentcloud_cloudvision_ocr/out/report.pdf"
                   "application/pdf" example_uri 1]) =
      requests (mkCloud [] []) ++ [request] /\
    upload_from_filename (mkServices (fun _ => true) (fun _ _ => true)) file = true /\
    operation_result (mkServices (fun _ => true) (fun _ _ => true)) request 360 = true /\
    request_source request = ("gs://" ++ bucket_name ++ "/" ++ blob_name)%string /\
    request_destination request = example_uri /\
    example_uri = gcs_destination_uri "out" "report.pdf".
Proof.
  apply (json_ocr_requests_uploaded_blob
           (mkServices (fun _ => true) (fun _ _ => true)) "out" "report.pdf"
           (mkCloud [] []));
    reflexivity.
Defined.

Lemma substring_slash (n : nat) (s : string) :
  String.prefix "/" s = true ->
  String.prefix "/" (substring 0 (S n) s ++ "_") = true.
Proof.
  destruct s as [|c s]; [discriminate|].
  cbn [substring append]. rewrite !prefix_slash_cons. auto.
Qed.

(** X8: a file name that starts with a slash replaces everything joined
    before it: the file is read from that absolute path and not from
    the input directory, and neither URI names the bucket. *)
Theorem absolute_filename_escapes (input_dir filename : string) :
  String.prefix "/" filename = true ->
  local_path input_dir filename = filename /\
  rel_remote_path input_dir filename = filename /\
  gcs_source_uri input_dir filename = filename /\
  gcs_destination_uri input_dir filename = (substring 0 60 filename ++ "_")%string.
Proof.
  intros Hf.
  assert (Hrel : rel_remote_path input_dir filename = filename).
  { unfold rel_remote_path, path_join. cbn [fold_left].
    apply path_join2_absolute, Hf. }
  repeat split.
  - unfold local_path, path_join. cbn [fold_left]. apply path_join2_absolute, Hf.
  - exact Hrel.
  - unfold gcs_source_uri, path_join. cbn [fold_left]. rewrite Hrel.
    apply path_join2_absolute, Hf.
  - unfold gcs_destination_uri, path_join. cbn [fold_left].
    apply path_join2_absolute, substring_slash, Hf.
Qed.

Lemma absolute_filename_escapes_witness :
  local_path "out" "/x.pdf" = "/x.pdf" /\
  rel_remote_path "out" "/x.pdf" = "/x.pdf" /\
  gcs_source_uri "out" "/x.pdf" = "/x.pdf" /\
  gcs_destination_uri "out" "/x.pdf" = (substring 0 60 "/x.pdf" ++ "_")%string.
Proof.
  apply (absolute_filename_escapes "out" "/x.pdf"). reflexivity.
Defined.





(** ** [validate] *)

Lemma fold_page_count (documents : list Document) (n : nat) :
  fold_left (fun num_pages document => num_pages + page_count document) documents n =
  n + list_sum (map page_count documents).
Proof.
  revert n. induction documents as [|d rest IH]; intros n; simpl.
  - lia.
  - rewrite IH. lia.
Qed.

Lemma count_pages_sum (documents : list Document) :
  count_pages documents = list_sum (map page_count documents).
Proof. unfold count_pages. rewrite fold_page_count. reflexivity. Qed.

(** X10: [validate] returns [True] exactly when documents are selected,
    there is an organization, and [charge_credits] accepts the sum of
    the page counts of the documents; that sum is then the one amount
    charged, and [validate] itself sets no message. *)
Theorem validate_true_iff (addon : AddOn) (w : World) :
  (snd (validate addon w) = Ok true <->
   get_document_count addon <> None /\
   truthy (org_id addon) = true /\
   snd (charge_credits addon
          (list_sum (map page_count (get_documents addon))) w) = None) /\
  (snd (validate addon w) = Ok true ->
   validate addon w =
     (fst (charge_credits addon
             (list_sum (map page_count (get_documents addon))) w),
      [list_sum (map page_count (get_documents addon))], Ok true)).
Proof.
  unfold validate. rewrite count_pages_sum.
  destruct (get_document_count addon) as [n|].
  - destruct (truthy (org_id addon)); simpl.
    + destruct (charge_credits addon _ w) as [w' [e|]]; simpl.
      * split.
        -- split.
           ++ destruct e; discriminate.
           ++ intros (_ & _ & H). discriminate.
        -- destruct e; discriminate.
      * split; [|reflexivity].
        split; [intros _; repeat split; discriminate|reflexivity].
    + split; [|discriminate].
      split; [discriminate|intros (_ & H & _); discriminate].
  - simpl. split; [|discriminate].
    split; [discriminate|intros (H & _); contradiction].
Qed.

Lemma validate_true_iff_witness :
  validate (mkAddOn (Some 2) (JInt 125)
              [mkDocument 1 "a" 3; mkDocument 2 "b" 4]
              (fun _ w => (w, None))) empty_world =
  (empty_world, [7], Ok true).
Proof.
  apply (proj2 (validate_true_iff
                  (mkAddOn (Some 2) (JInt 125)
                     [mkDocument 1 "a" 3; mkDocument 2 "b" 4]
                     (fun _ w => (w, None))) empty_world)).
  reflexivity.
Defined.

(** X11: without a selection or without an organization, [validate]
    returns [False], sets one message and never calls
    [charge_credits]. *)
Theorem validate_gates_do_not_charge (addon : AddOn) (w : World) :
  get_document_count addon = None \/ truthy (org_id addon) = false ->
  exists msg,
    validate addon w = (set_message msg w, [], Ok false) /\
    (msg = no_documents_message \/ msg = no_organization_message).
Proof.
  unfold validate. intros [H|H].
  - rewrite H. exists no_documents_message. auto.
  - destruct (get_document_count addon).
    + rewrite H. exists no_organization_message. auto.
    + exists no_documents_message. auto.
Qed.

Lemma validate_gates_do_not_charge_witness :
  exists msg,
    validate (mkAddOn (Some 1) JNull [mkDocument 1 "a" 3]
                (fun _ w => (w, None))) empty_world =
      (set_message msg empty_world, [], Ok false) /\
    (msg = no_documents_message \/ msg = no_organization_message).
Proof.
  apply (validate_gates_do_not_charge
           (mkAddOn (Some 1) JNull [mkDocument 1 "a" 3] (fun _ w => (w, None)))
           empty_world).
  right. reflexivity.
Defined.

(** X12: a [ValueError] of [charge_credits] is caught and makes
    [validate] return [False]; any other exception of it leaves
    [validate]. *)
Theorem validate_catches_value_error_only
  (addon : AddOn) (w w' : World) (n : nat) (e : exn) :
  get_document_count addon = Some n ->
  truthy (org_id addon) = true ->
  charge_credits addon (list_sum (map page_count (get_documents addon))) w =
    (w', Some e) ->
  validate addon w =
    (w', [list_sum (map page_count (get_documents addon))],
     match e with ValueError => Ok false | _ => Raise e end).
Proof.
  intros Hc Ho Hch. unfold validate.
  rewrite Hc, Ho, count_pages_sum, Hch. simpl.
  destruct e; reflexivity.
Qed.

Lemma validate_catches_value_error_only_witness :
  validate (mkAddOn (Some 1) (JInt 125) [mkDocument 1 "a" 3]
              (fun _ w => (w, Some ValueError))) empty_world =
    (empty_world, [3], Ok false) /\
  validate (mkAddOn (Some 1) (JInt 125) [mkDocument 1 "a" 3]
              (fun _ w => (w, Some TypeError))) empty_world =
    (empty_world, [3], Raise TypeError).
Proof.
  split.
  - apply (validate_catches_value_error_only
             (mkAddOn (Some 1) (JInt 125) [mkDocument 1 "a" 3]
                (fun _ w => (w, Some ValueError)))
             empty_world empty_world 1 ValueError); reflexivity.
  - apply (validate_catches_value_error_only
             (mkAddOn (Some 1) (JInt 125) [mkDocument 1 "a" 3]
                (fun _ w => (w, Some TypeError)))
             empty_world empty_world 1 TypeError); reflexivity.
Defined.

(** ** Runs over longer shard sequences *)

Lemma responses_loop_app (i : nat) (us1 us2 : list json) (pages : list Page) (w : World) :
  responses_loop i (us1 ++ us2) pages w =
  match responses_loop i us1 pages w with
  | inl (pages', w') => responses_loop i us2 pages' w'
  | inr a => inr a
  end.
Proof.
  revert pages. induction us1 as [|u rest IH]; intros pages; simpl.
  - reflexivity.
  - destruct (build_page i u); [apply IH|reflexivity].
Qed.

Lemma blobs_loop_app (i : nat) (bs1 bs2 : list Blob) (pages : list Page) (w : World) :
  blobs_loop i (bs1 ++ bs2) pages w =
  match blobs_loop i bs1 pages w with
  | inl (pages', w') => blobs_loop (i + List.length bs1) bs2 pages' w'
  | inr a => inr a
  end.
Proof.
  revert i pages w. induction bs1 as [|b rest IH]; intros i pages w; simpl.
  - rewrite Nat.add_0_r. reflexivity.
  - destruct (blob_step i b pages w) as [[pages1 w1]|a]; [|reflexivity].
    rewrite IH. replace (S i + List.length rest) with (i + S (List.length rest)) by lia.
    reflexivity.
Qed.

(** X13: the first response unit whose page cannot be built decides how
    the run ends: after well-formed shards and well-formed units, the
    exception of that unit is handled as the [except] clauses say, and
    nothing that follows it is read. *)
Theorem first_failing_unit_decides
  (document : Document) (good rest : list Blob) (bad : Blob) (response : json)
  (before after : list json) (u : json) (e : exn) (w : World) :
  forallb valid_shard good = true ->
  payload bad = Some response ->
  items_of response "responses" = Ok (before ++ u :: after) ->
  forallb valid_unit before = true ->
  build_page (List.length good) u = Raise e ->
  set_doc_text document (good ++ bad :: rest) w = on_exception e w.
Proof.
  intros Hgood Hp Hitems Hbefore Hu. unfold set_doc_text.
  rewrite blobs_loop_app.
  destruct (blobs_loop_total 0 good [] w Hgood) as (pages & ->).
  simpl. unfold blob_step. rewrite Hp.
  unfold items_of in Hitems.
  destruct (getitem_key response "responses") as [v|e0]; simpl in Hitems;
    [|discriminate].
  rewrite Hitems, responses_loop_app.
  destruct (responses_loop_total (List.length good) before pages w Hbefore)
    as (new & ->).
  simpl. rewrite Hu. reflexivity.
Qed.

Lemma first_failing_unit_decides_witness :
  set_doc_text example_document
    ([shard_of "p_1_" [sample_response]]
       ++ shard_of "p_2_" ([JObj []] ++ unit_without_text :: [JObj []])
       :: [mkBlob "p_3_" None]) empty_world =
  on_exception (KeyError (KStr "text")) empty_world.
Proof.
  apply (first_failing_unit_decides example_document
           [shard_of "p_1_" [sample_response]] [mkBlob "p_3_" None]
           (shard_of "p_2_" ([JObj []] ++ unit_without_text :: [JObj []]))
           (JObj [("responses", JArr ([JObj []] ++ unit_without_text :: [JObj []]))])
           [JObj []] [JObj []] unit_without_text (KeyError (KStr "text")));
    reflexivity.
Defined.

(** X14: a shard whose payload is not JSON ends the run with the
    [ValueError] of [json.loads] unhandled: the call is outside the
    [try], so no message is set and nothing is patched. *)
Theorem unparseable_shard_is_unhandled
  (document : Document) (good rest : list Blob) (bad : Blob) (w : World) :
  forallb valid_shard good = true ->
  payload bad = None ->
  set_doc_text document (good ++ bad :: rest) w = (w, Unhandled ValueError).
Proof.
  intros Hgood Hp. unfold set_doc_text. rewrite blobs_loop_app.
  destruct (blobs_loop_total 0 good [] w Hgood) as (pages & ->).
  simpl. unfold blob_step. rewrite Hp. reflexivity.
Qed.

Lemma unparseable_shard_is_unhandled_witness :
  set_doc_text example_document
    ([shard_of "p_1_" [sample_response]] ++ mkBlob "p_2_" None :: [shard "p_3_"])
    empty_world = (empty_world, Unhandled ValueError).
Proof.
  apply (unparseable_shard_is_unhandled example_document
           [shard_of "p_1_" [sample_response]] [shard "p_3_"] (mkBlob "p_2_" None));
    reflexivity.
Defined.

(** X15: a shard whose payload is an object without ["responses"] ends
    the run with the [KeyError] unhandled: the lookup is outside the
    [try], so the key error message is not set. *)
Theorem shard_without_responses_is_unhandled
  (document : Document) (good rest : list Blob) (bad : Blob)
  (fields : list (string * json)) (w : World) :
  forallb valid_shard good = true ->
  payload bad = Some (JObj fields) ->
  dict_lookup "responses" fields = None ->
  set_doc_text document (good ++ bad :: rest) w =
    (w, Unhandled (KeyError (KStr "responses"))).
Proof.
  intros Hgood Hp Hl. unfold set_doc_text. rewrite blobs_loop_app.
  destruct (blobs_loop_total 0 good [] w Hgood) as (pages & ->).
  simpl. unfold blob_step, getitem_key. rewrite Hp, Hl. reflexivity.
Qed.

Lemma shard_without_responses_is_unhandled_witness :
  set_doc_text example_document
    ([shard "p_1_"] ++ mkBlob "p_2_" (Some (JObj [("error", JStr "failed")])) :: [])
    empty_world = (empty_world, Unhandled (KeyError (KStr "responses"))).
Proof.
  apply (shard_without_responses_is_unhandled example_document
           [shard "p_1_"] [] (mkBlob "p_2_" (Some (JObj [("error", JStr "failed")])))
           [("error", JStr "failed")]);
    reflexivity.
Defined.

(** X16: once a run has stopped early, shards that come later in the
    sequence make no difference: they are not read. *)
Theorem later_shards_not_read
  (document : Document) (blobs more : list Blob) (w w' : World) (t : termination) :
  t <> Returned ->
  set_doc_text document blobs w = (w', t) ->
  set_doc_text document (blobs ++ more) w = (w', t).
Proof.
  intros Ht. unfold set_doc_text. rewrite blobs_loop_app.
  destruct (blobs_loop 0 blobs [] w) as [[pages w1]|a].
  - intros [= <- <-]. contradiction.
  - auto.
Qed.

Lemma later_shards_not_read_witness :
  set_doc_text example_document (broken_shards ++ [mkBlob "p_3_" None]) empty_world =
  (mkWorld [key_error_message] ["'text'"] [], SysExit 1).
Proof.
  apply (later_shards_not_read example_document broken_shards
           [mkBlob "p_3_" None] empty_world);
    [discriminate|reflexivity].
Defined.

(** X17: the pages of a run over two shard sequences in a row are the
    pages of a run over the first, followed by the pages of the second,
    which are numbered from the number of shards of the first on (not
    from its number of pages). *)
Theorem pages_of_concatenated_shards
  (document : Document) (bs1 bs2 : list Blob) (w w' : World) :
  set_doc_text document (bs1 ++ bs2) w = (w', Returned) ->
  exists pages1 pages2,
    w' = client_patch (id document) (pages1 ++ pages2) w /\
    set_doc_text document bs1 w = (client_patch (id document) pages1 w, Returned) /\
    Forall2 (fun iu page => build_page (fst iu) (snd iu) = Ok page)
      (indexed_units (List.length bs1) bs2) pages2 /\
    map page_number pages2 = shard_indices (List.length bs1) (unit_counts bs2).
Proof.
  unfold set_doc_text. rewrite blobs_loop_app.
  destruct (blobs_loop 0 bs1 [] w) as [[pages1 w1]|a] eqn:E1.
  - apply blobs_loop_inl in E1. destruct E1 as (-> & new1 & -> & _).
    simpl.
    destruct (blobs_loop (List.length bs1) bs2 new1 w) as [[pages w2]|a] eqn:E2.
    + apply blobs_loop_inl in E2. destruct E2 as (-> & new2 & -> & H2).
      intros [= <-]. exists new1, new2.
      split; [reflexivity|]. split; [reflexivity|]. split; [exact H2|].
      rewrite (page_numbers_of_units _ _ H2). apply indexed_units_indices.
    + intros ->. apply blobs_loop_inr in E2.
      destruct E2 as [(e & [= ])|(j & u & e & _ & _ & E)].
      destruct e; discriminate.
  - intros ->. apply blobs_loop_inr in E1.
    destruct E1 as [(e & [= ])|(j & u & e & _ & _ & E)].
    destruct e; discriminate.
Qed.

Lemma pages_of_concatenated_shards_witness :
  exists pages1 pages2,
    client_patch 7 [sample_page; empty_page 0; empty_page 1] empty_world =
      client_patch (id example_document) (pages1 ++ pages2) empty_world /\
    set_doc_text example_document [shard_of "p_1_" [sample_response; JObj []]]
      empty_world = (client_patch (id example_document) pages1 empty_world, Returned) /\
    Forall2 (fun iu page => build_page (fst iu) (snd iu) = Ok page)
      (indexed_units 1 [shard_of "p_2_" [JObj []]]) pages2 /\
    map page_number pages2 = shard_indices 1 (unit_counts [shard_of "p_2_" [JObj []]]).
Proof.
  apply (pages_of_concatenated_shards example_document
           [shard_of "p_1_" [sample_response; JObj []]] [shard_of "p_2_" [JObj []]]
           empty_world).
  reflexivity.
Defined.

(** ** What the [try] block can raise *)

Lemma bind_no_value_error {A B : Type} (m : result A) (k : A -> result B) :
  m <> Raise ValueError ->
  (forall a, k a <> Raise ValueError) ->
  bind m k <> Raise ValueError.
Proof.
  intros Hm Hk. destruct m as [a|e]; simpl; [apply Hk|].
  intros [= ->]. apply Hm. reflexivity.
Qed.

Lemma getitem_key_no_value_error (v : json) (k : string) :
  getitem_key v k <> Raise ValueError.
Proof.
  destruct v; simpl; try discriminate.
  destruct (dict_lookup k fields); discriminate.
Qed.

Lemma getitem_idx_no_value_error (v : json) (n : nat) :
  getitem_idx v n <> Raise ValueError.
Proof.
  destruct v; simpl; try discriminate.
  - destruct (String.get n s); discriminate.
  - destruct (nth_error items n); discriminate.
Qed.

Lemma call_get_no_value_error (v : json) (k : string) (d : json) :
  call_get v k d <> Raise ValueError.
Proof.
  destruct v; simpl; try discriminate.
  destruct (dict_lookup k fields); discriminate.
Qed.

Lemma iter_no_value_error (v : json) : iter v <> Raise ValueError.
Proof. destruct v; discriminate. Qed.

Lemma items_of_no_value_error (v : json) (k : string) :
  items_of v k <> Raise ValueError.
Proof.
  apply bind_no_value_error;
    [apply getitem_key_no_value_error|intros; apply iter_no_value_error].
Qed.

Lemma in_unit_interval_no_value_error (v : json) :
  in_unit_interval v <> Raise ValueError.
Proof.
  unfold in_unit_interval.
  destruct v as [|b|z|[q| | |]|s|items|fields]; simpl; try discriminate.
  - destruct (0 <=? z)%Z; discriminate.
  - destruct (Qle_bool 0 q); discriminate.
Qed.

Lemma and_then_no_value_error (a b : result bool) :
  a <> Raise ValueError -> b <> Raise ValueError ->
  and_then a b <> Raise ValueError.
Proof.
  intros Ha Hb. apply bind_no_value_error; [exact Ha|].
  intros [|]; [exact Hb|discriminate].
Qed.

Lemma symbol_texts_no_value_error (symbols : list json) :
  symbol_texts symbols <> Raise ValueError.
Proof.
  induction symbols as [|symbol rest IH]; simpl; [discriminate|].
  apply bind_no_value_error; [apply getitem_key_no_value_error|intros t].
  apply bind_no_value_error; [exact IH|discriminate].
Qed.

Lemma join_empty_no_value_error (items : list json) :
  join_empty items <> Raise ValueError.
Proof.
  induction items as [|item rest IH]; simpl; [discriminate|].
  destruct item; try discriminate.
  apply bind_no_value_error; [exact IH|discriminate].
Qed.

Lemma gather_no_value_error {A B : Type} (f : A -> result (list B)) (xs : list A) :
  (forall x, f x <> Raise ValueError) -> gather f xs <> Raise ValueError.
Proof.
  intros Hf. induction xs as [|x rest IH]; simpl; [discriminate|].
  apply bind_no_value_error; [apply Hf|intros l].
  apply bind_no_value_error; [exact IH|discriminate].
Qed.

Lemma word_positions_no_value_error (word : json) :
  word_positions word <> Raise ValueError.
Proof.
  unfold word_positions, word_step.
  apply bind_no_value_error.
  - unfold word_coords.
    repeat (apply bind_no_value_error;
            [first [apply getitem_key_no_value_error
                   |apply getitem_idx_no_value_error
                   |apply call_get_no_value_error]
            |intros ?]).
    discriminate.
  - intros [[[x1 x2] y1] y2].
    apply bind_no_value_error.
    + unfold word_text.
      repeat (apply bind_no_value_error;
              [first [apply getitem_key_no_value_error
                     |apply iter_no_value_error
                     |apply symbol_texts_no_value_error]
              |intros ?]).
      apply join_empty_no_value_error.
    + intros t. apply bind_no_value_error.
      * unfold coords_in_range.
        do 3 (apply and_then_no_value_error;
              [apply in_unit_interval_no_value_error|]).
        apply in_unit_interval_no_value_error.
      * intros [|]; discriminate.
Qed.

Lemma build_page_no_value_error (i : nat) (text_response : json) :
  build_page i text_response <> Raise ValueError.
Proof.
  rewrite build_page_eq.
  apply bind_no_value_error; [apply call_get_no_value_error|intros a].
  destruct (truthy a); [|discriminate].
  apply bind_no_value_error; [apply getitem_key_no_value_error|intros t].
  apply bind_no_value_error; [|discriminate].
  unfold annotation_positions.
  apply bind_no_value_error; [apply items_of_no_value_error|intros aps].
  apply gather_no_value_error. intros ap. unfold ann_page_positions.
  apply bind_no_value_error; [apply items_of_no_value_error|intros bs].
  apply gather_no_value_error. intros b. unfold block_positions.
  apply bind_no_value_error; [apply items_of_no_value_error|intros ps].
  apply gather_no_value_error. intros p. unfold paragraph_positions.
  apply bind_no_value_error; [apply items_of_no_value_error|intros ws].
  apply gather_no_value_error, word_positions_no_value_error.
Qed.

Lemma set_doc_text_ends (document : Document) (blobs : list Blob) (w w' : World)
  (t : termination) :
  set_doc_text document blobs w = (w', t) ->
  (t = Returned /\ exists pages, w' = client_patch (id document) pages w) \/
  (exists e, t = Unhandled e /\ w' = w) \/
  (exists k, t = SysExit 1 /\
             w' = set_message key_error_message (print (key_repr k) w)).
Proof.
  unfold set_doc_text.
  destruct (blobs_loop 0 blobs [] w) as [[pages w1]|a] eqn:E.
  - apply blobs_loop_inl in E. destruct E as (-> & new & -> & _).
    intros [= <- <-]. left. split; [reflexivity|]. exists new. reflexivity.
  - intros ->. right. apply blobs_loop_inr in E.
    destruct E as [(e & [= -> ->])|(j & u & e & _ & Hb & E)].
    + left. exists e. auto.
    + destruct e as [k| | | |]; simpl in E; injection E as -> ->.
      * right. exists k. auto.
      * exfalso. exact (build_page_no_value_error j u Hb).
      * left. exists IndexError. auto.
      * left. exists TypeError. auto.
      * left. exists AttributeError. auto.
Qed.

(** X18: a run ends in one of three ways: it returns, having sent one
    patch and set no message; or an exception leaves it, with nothing
    changed; or it exits with code 1 after printing the missing key and
    setting the key error message.  Nothing inside the [try] raises a
    [ValueError], so the value error message is never set. *)
Theorem run_outcomes (document : Document) (blobs : list Blob) (w w' : World)
  (t : termination) :
  set_doc_text document blobs w = (w', t) ->
  (t = Returned /\ exists pages, w' = client_patch (id document) pages w) \/
  (exists e, t = Unhandled e /\ w' = w) \/
  (exists k, t = SysExit 1 /\
             w' = set_message key_error_message (print (key_repr k) w)).
Proof. exact (set_doc_text_ends document blobs w w' t). Qed.

Lemma run_outcomes_witness :
  (SysExit 1 = Returned /\
   exists pages,
     mkWorld [key_error_message] ["'text'"] [] =
     client_patch (id example_document) pages empty_world) \/
  (exists e, SysExit 1 = Unhandled e /\
             mkWorld [key_error_message] ["'text'"] [] = empty_world) \/
  (exists k, SysExit 1 = SysExit 1 /\
             mkWorld [key_error_message] ["'text'"] [] =
             set_message key_error_message (print (key_repr k) empty_world)).
Proof.
  apply (run_outcomes example_document broken_shards empty_world).
  reflexivity.
Defined.

(** ** Single pages *)

(** X19: what [build_page] makes of a response unit does not depend on
    the index of the shard, except for the page number: at another
    index it raises the same exception or gives the same text, engine
    tag and positions. *)
Theorem build_page_index_independent (i j : nat) (text_response : json) :
  build_page j text_response =
  match build_page i text_response with
  | Ok page => Ok (mkPage j (text page) (ocr page) (positions page))
  | Raise e => Raise e
  end.
Proof.
  rewrite !build_page_eq.
  destruct (call_get text_response "fullTextAnnotation" JNull) as [a|e];
    simpl; [|reflexivity].
  destruct (truthy a); [|reflexivity].
  destruct (getitem_key a "text") as [t|e]; simpl; [|reflexivity].
  destruct (annotation_positions a) as [ps|e]; reflexivity.
Qed.

(** X20: the text of a page with an annotation is the value of the
    annotation's ["text"], taken as it is, whatever its type, and the
    engine tag is ["googlecv"]. *)
Theorem page_text_is_annotation_text
  (i : nat) (text_response annotation : json) (page : Page) :
  call_get text_response "fullTextAnnotation" JNull = Ok annotation ->
  truthy annotation = true ->
  build_page i text_response = Ok page ->
  getitem_key annotation "text" = Ok (text page) /\
  ocr page = "googlecv" /\
  page_number page = i.
Proof.
  rewrite build_page_eq. intros -> Ht. simpl. rewrite Ht. intros H.
  bind_inv H as t Htext. bind_inv H as ps Hps. injection H as <-.
  auto.
Qed.

Lemma page_text_is_annotation_text_witness :
  build_page 3 (JObj [("fullTextAnnotation",
                       JObj [("text", JInt 5); ("pages", JArr [])])]) =
    Ok (mkPage 3 (JInt 5) "googlecv" []) /\
  getitem_key (JObj [("text", JInt 5); ("pages", JArr [])]) "text" =
    Ok (text (mkPage 3 (JInt 5) "googlecv" [])).
Proof.
  split; [reflexivity|].
  apply (page_text_is_annotation_text 3
           (JObj [("fullTextAnnotation",
                   JObj [("text", JInt 5); ("pages", JArr [])])])
           (JObj [("text", JInt 5); ("pages", JArr [])])
           (mkPage 3 (JInt 5) "googlecv" []));
    reflexivity.
Defined.

(** X21: a response unit that is not an object raises [AttributeError]
    at [text_response.get], which no [except] clause catches: the run
    ends there with nothing changed. *)
Theorem non_object_unit_is_unhandled
  (i : nat) (text_response : json) (rest : list json) (pages : list Page) (w : World) :
  is_object text_response = false ->
  build_page i text_response = Raise AttributeError /\
  responses_loop i (text_response :: rest) pages w =
    inr (w, Unhandled AttributeError).
Proof.
  intros H.
  assert (Hb : build_page i text_response = Raise AttributeError).
  { destruct text_response; try discriminate; reflexivity. }
  split; [exact Hb|]. simpl. rewrite Hb. reflexivity.
Qed.

Lemma non_object_unit_is_unhandled_witness :
  build_page 0 JNull = Raise AttributeError /\
  responses_loop 0 (JNull :: [JObj []]) [] empty_world =
    inr (empty_world, Unhandled AttributeError).
Proof.
  apply (non_object_unit_is_unhandled 0 JNull [JObj []] [] empty_world).
  reflexivity.
Defined.

(** X22: an annotation that is truthy but not an object (a number, a
    string, a list, [true]) raises [TypeError] at [annotation["text"]],
    which no [except] clause catches. *)
Theorem non_object_annotation_is_unhandled
  (i : nat) (text_response annotation : json) (rest : list json)
  (pages : list Page) (w : World) :
  call_get text_response "fullTextAnnotation" JNull = Ok annotation ->
  truthy annotation = true ->
  is_object annotation = false ->
  build_page i text_response = Raise TypeError /\
  responses_loop i (text_response :: rest) pages w = inr (w, Unhandled TypeError).
Proof.
  intros Hget Ht Ho.
  assert (Hb : build_page i text_response = Raise TypeError).
  { unfold build_page. rewrite Hget. simpl. rewrite Ht.
    destruct annotation; try discriminate; reflexivity. }
  split; [exact Hb|]. simpl. rewrite Hb. reflexivity.
Qed.

Lemma non_object_annotation_is_unhandled_witness :
  build_page 0 (JObj [("fullTextAnnotation", JStr "Hi")]) = Raise TypeError /\
  responses_loop 0 (JObj [("fullTextAnnotation", JStr "Hi")] :: []) [] empty_world =
    inr (empty_world, Unhandled TypeError).
Proof.
  apply (non_object_annotation_is_unhandled 0
           (JObj [("fullTextAnnotation", JStr "Hi")]) (JStr "Hi") [] [] empty_world);
    reflexivity.
Defined.

Lemma flat_map_at_most_one {A B : Type} (f : A -> list B) (xs : list A) :
  Forall (fun x => List.length (f x) <= 1) xs ->
  List.length (flat_map f xs) <= List.length xs /\
  (List.length (flat_map f xs) = List.length xs <->
   Forall (fun x => f x <> []) xs).
Proof.
  induction 1 as [|x rest Hx _ [IHle IHeq]]; simpl.
  - split; [lia|]. split; [constructor|reflexivity].
  - rewrite length_app. split; [lia|]. split.
    + intros H. assert (List.length (f x) = 1) by lia.
      constructor; [destruct (f x); [discriminate|discriminate]|].
      apply IHeq. lia.
    + intros H. inversion H as [|? ? Hne Hrest]; subst.
      apply IHeq in Hrest.
      destruct (f x) as [|b [|b' l]]; simpl in *; try lia. contradiction.
Qed.

(** X23: a page never has more positions than its response unit has
    words, and it has as many exactly when no word was dropped. *)
Theorem positions_at_most_words (i : nat) (text_response : json) (page : Page) :
  build_page i text_response = Ok page ->
  exists words,
    response_words text_response = Ok words /\
    List.length (positions page) <= List.length words /\
    (List.length (positions page) = List.length words <->
     Forall (fun word => expected_positions word <> []) words).
Proof.
  intros H. apply build_page_positions in H. destruct H as (words & Hw & Hg).
  exists words. split; [exact Hw|].
  apply gather_word_positions in Hg. destruct Hg as [-> Hall].
  apply flat_map_at_most_one.
  eapply Forall_impl; [|exact Hall].
  intros word (c & t & _ & _ & ->).
  destruct (coords_in_unit c); simpl; lia.
Qed.

Lemma positions_at_most_words_witness :
  exists words,
    response_words sample_response = Ok words /\
    List.length (positions sample_page) <= List.length words /\
    (List.length (positions sample_page) = List.length words <->
     Forall (fun word => expected_positions word <> []) words).
Proof.
  apply (positions_at_most_words 0 sample_response sample_page).
  reflexivity.
Defined.

(** ** [main] *)

Lemma vision_method_patches (bucket : Bucket) (document : Document) (uri : string)
  (w w' : World) (t : termination) :
  vision_method bucket document uri w = (w', t) ->
  (t = Returned /\ exists pages, w' = client_patch (id document) pages w) \/
  (t <> Returned /\ patches w' = patches w).
Proof.
  unfold vision_method. destruct (list_blobs bucket uri) as [blobs|e].
  - intros H. apply set_doc_text_ends in H.
    destruct H as [[-> H]|[(e & -> & ->)|(k & -> & ->)]].
    + left. auto.
    + right. split; [discriminate|reflexivity].
    + right. split; [discriminate|reflexivity].
  - intros [= <- <-]. right. split; [discriminate|reflexivity].
Qed.

Lemma json_ocr_log (services : Services) (input_dir filename : string)
  (c c' : Cloud) (r : option string) :
  json_ocr services input_dir filename c = (c', r) ->
  (r = None /\ c' = c) \/
  (exists request,
      uploads c' =
        uploads c ++ [(rel_remote_path input_dir filename,
                       local_path input_dir filename)] /\
      requests c' = requests c ++ [request]).
Proof.
  unfold json_ocr.
  destruct (upload_from_filename services (local_path input_dir filename)).
  - match goal with
    | |- context [operation_result services ?q 360] =>
        destruct (operation_result services q 360)
    end; intros [= <- <-]; right; eexists; split; reflexivity.
  - intros [= <- <-]. left. auto.
Qed.

(** What the loop of [main] leaves in the logs. *)
Lemma documents_loop_log (host : Host) (documents : list Document)
  (w w' : World) (c c' : Cloud) (e : ending) :
  documents_loop host documents w c = (w', c', e) ->
  exists new_patches new_uploads new_requests,
    patches w' = patches w ++ new_patches /\
    uploads c' = uploads c ++ new_uploads /\
    requests c' = requests c ++ new_requests /\
    map fst new_patches = map id (firstn (List.length new_patches) documents) /\
    new_uploads =
      map (fun d => (rel_remote_path "out" (pdf_name d), local_path "out" (pdf_name d)))
        (firstn (List.length new_uploads) documents) /\
    List.length new_patches <= List.length new_requests /\
    List.length new_requests <= List.length new_uploads /\
    List.length new_uploads <= List.length documents /\
    (e = Ended Returned -> List.length new_patches = List.length documents).
Proof.
  revert w c. induction documents as [|d rest IH]; intros w c; simpl.
  - intros [= <- <- <-]. exists [], [], [].
    rewrite !app_nil_r. repeat split; auto.
  - destruct (write_file host _).
    2:{ intros [= <- <- <-]. exists [], [], [].
        rewrite !app_nil_r. repeat split; simpl; auto; try lia. discriminate. }
    unfold vision_method_of_file.
    destruct (json_ocr (services host) "out" (pdf_name d) c) as [c1 r] eqn:Ej.
    apply json_ocr_log in Ej.
    destruct r as [uri|].
    + destruct Ej as [[H _]|(request & Hu & Hr)]; [discriminate|].
      destruct (vision_method (bucket_after host c1) d uri w) as [w1 t] eqn:Ev.
      apply vision_method_patches in Ev.
      destruct Ev as [[-> (pages & ->)]|[Ht Hp]].
      * intros H. apply IH in H.
        destruct H as (np & nu & nr & H1 & H2 & H3 & H4 & H5 & H6 & H7 & H8 & H9).
        exists ((id d, pages) :: np),
          ((rel_remote_path "out" (pdf_name d), local_path "out" (pdf_name d)) :: nu),
          (request :: nr).
        rewrite H1, H2, H3, Hu, Hr. simpl. rewrite <- !app_assoc. simpl.
        repeat split; try lia.
        -- rewrite H4. reflexivity.
        -- rewrite <- H5. reflexivity.
        -- intros He. rewrite (H9 He). reflexivity.
      * assert (Hstop : (w1, c1, Ended t) = (w', c', e) ->
                        w' = w1 /\ c' = c1 /\ e = Ended t)
          by (intros [= <- <- <-]; auto).
        intros H.
        assert (H' : (w1, c1, Ended t) = (w', c', e))
          by (destruct t; try exact H; contradiction).
        destruct (Hstop H') as (-> & -> & ->).
        exists [],
          [(rel_remote_path "out" (pdf_name d), local_path "out" (pdf_name d))],
          [request].
        rewrite Hp, Hu, Hr, app_nil_r. simpl.
        repeat split; try lia.
        intros [= ->]. contradiction.
    + intros [= <- <- <-].
      destruct Ej as [[_ ->]|(request & Hu & Hr)].
      * exists [], [], []. rewrite !app_nil_r.
        repeat split; simpl; auto; try lia. discriminate.
      * exists [],
          [(rel_remote_path "out" (pdf_name d), local_path "out" (pdf_name d))],
          [request].
        rewrite Hu, Hr, app_nil_r. simpl.
        repeat split; try lia. discriminate.
Qed.

(** X24: without a selection or without an organization, [main] charges
    nothing, uploads nothing, requests no OCR and patches no document. *)
Theorem main_without_selection (host : Host) (addon : AddOn) (w : World) (c : Cloud) :
  get_document_count addon = None \/ truthy (org_id addon) = false ->
  exists w' e,
    main host addon w c = (w', c, [], e) /\
    patches w' = patches w /\
    (os_mkdir host "out" = true ->
     e = Ended Returned /\
     (w' = set_message no_documents_message w \/
      w' = set_message no_organization_message w)).
Proof.
  intros H. unfold main.
  destruct (os_mkdir host "out").
  - assert (Hv : exists msg,
               validate addon w = (set_message msg w, [], Ok false) /\
               (msg = no_documents_message \/ msg = no_organization_message)).
    { unfold validate. destruct H as [H|H].
      - rewrite H. exists no_documents_message. auto.
      - destruct (get_document_count addon).
        + rewrite H. exists no_organization_message. auto.
        + exists no_documents_message. auto. }
    destruct Hv as (msg & -> & Hmsg).
    exists (set_message msg w), (Ended Returned).
    split; [reflexivity|]. split; [reflexivity|].
    intros _. split; [reflexivity|].
    destruct Hmsg as [->| ->]; auto.
  - exists w, (Failed "os.mkdir").
    split; [reflexivity|]. split; [reflexivity|]. discriminate.
Qed.

Lemma main_without_selection_witness :
  exists w' e,
    main (mkHost (fun _ => true) (fun _ => true)
            (mkServices (fun _ => true) (fun _ _ => true)) (fun _ => lex_bucket))
      (mkAddOn None (JInt 125) [example_document] (fun _ w => (w, None)))
      empty_world (mkCloud [] []) = (w', mkCloud [] [], [], e) /\
    patches w' = patches empty_world /\
    ((fun _ : string => true) "out" = true ->
     e = Ended Returned /\
     (w' = set_message no_documents_message empty_world \/
      w' = set_message no_organization_message empty_world)).
Proof.
  apply (main_without_selection
           (mkHost (fun _ => true) (fun _ => true)
              (mkServices (fun _ => true) (fun _ _ => true)) (fun _ => lex_bucket))
           (mkAddOn None (JInt 125) [example_document] (fun _ w => (w, None)))
           empty_world (mkCloud [] [])).
  left. reflexivity.
Defined.

(** X25: after a successful [validate], [main] works through the
    documents in their order and stops at the first one that does not
    go through: the patches it sends are for a leading part of the
    documents, one each and in order, the uploads likewise; it never
    patches more documents than it requested OCR for, never requests
    more than it uploaded, and when it returns every document has been
    patched. *)
Theorem main_patches_documents_in_order
  (host : Host) (addon : AddOn) (w w0 w' : World) (c c' : Cloud)
  (charged charged' : list nat) (e : ending) :
  os_mkdir host "out" = true ->
  validate addon w = (w0, charged, Ok true) ->
  main host addon w c = (w', c', charged', e) ->
  charged' = charged /\
  exists new_patches new_uploads new_requests,
    patches w' = patches w0 ++ new_patches /\
    uploads c' = uploads c ++ new_uploads /\
    requests c' = requests c ++ new_requests /\
    map fst new_patches =
      map id (firstn (List.length new_patches) (get_documents addon)) /\
    new_uploads =
      map (fun d => (rel_remote_path "out" (pdf_name d), local_path "out" (pdf_name d)))
        (firstn (List.length new_uploads) (get_documents addon)) /\
    List.length new_patches <= List.length new_requests /\
    List.length new_requests <= List.length new_uploads /\
    List.length new_uploads <= List.length (get_documents addon) /\
    (e = Ended Returned ->
     List.length new_patches = List.length (get_documents addon)).
Proof.
  intros Hm Hv. unfold main. rewrite Hm, Hv.
  destruct (documents_loop host (get_documents addon) w0 c) as [[w1 c1] e1] eqn:E.
  intros [= <- <- <- <-]. split; [reflexivity|].
  exact (documents_loop_log _ _ _ _ _ _ _ E).
Qed.

Lemma main_patches_documents_in_order_witness :
  sample_main_run =
    (mkWorld [] [] [(1, [empty_page 0])],
     snd (fst (fst sample_main_run)), [7], Ended (Unhandled ValueError)) /\
  [7] = [7] /\
  exists new_patches new_uploads new_requests,
    patches (mkWorld [] [] [(1, [empty_page 0])]) =
      patches empty_world ++ new_patches /\
    uploads (snd (fst (fst sample_main_run))) =
      uploads (mkCloud [] []) ++ new_uploads /\
    requests (snd (fst (fst sample_main_run))) =
      requests (mkCloud [] []) ++ new_requests /\
    map fst new_patches =
      map id (firstn (List.length new_patches) (get_documents sample_addon)) /\
    new_uploads =
      map (fun d => (rel_remote_path "out" (pdf_name d), local_path "out" (pdf_name d)))
        (firstn (List.length new_uploads) (get_documents sample_addon)) /\
    List.length new_patches <= List.length new_requests /\
    List.length new_requests <= List.length new_uploads /\
    List.length new_uploads <= List.length (get_documents sample_addon) /\
    (Ended (Unhandled ValueError) = Ended Returned ->
     List.length new_patches = List.length (get_documents sample_addon)).
Proof.
  split; [reflexivity|].
  apply (main_patches_documents_in_order sample_host sample_addon
           empty_world empty_world (mkWorld [] [] [(1, [empty_page 0])])
           (mkCloud [] []) (snd (fst (fst sample_main_run))) [7] [7]
           (Ended (Unhandled ValueError)));
    reflexivity.
Defined.
